(** * Heading anchors for goldmark: transform pass and render pass

    A shallow embedding of [extension/anchor.go]: the policy surfaces
    ([Texter], [Position], [Attributer]), the AST transformer that hangs an
    anchor [Node] under every heading, and the renderer that turns an anchor
    node into an [<a>] element.  The pieces of goldmark that the file only
    calls ([ast], [util], [renderer/html]) are modelled next to it. *)

From Stdlib Require Import String Ascii.
From Stdlib.Strings Require Import Byte.
From Stdlib Require Import List ZArith Lia Bool Permutation.
Import ListNotations.

Set Implicit Arguments.

(** ** Go base types *)

(** [[]byte] *)
Definition bytes := list byte.

(** [[]byte(s)] for a Go string [s]. *)
Definition bytes_of_string (s : string) : bytes := list_byte_of_string s.

(** Go's builtin [len], an [int]. *)
Definition len {A : Type} (l : list A) : Z := Z.of_nat (length l).

(** Go's [error] interface; [option error] is an error value that may be
    [nil]. *)
Inductive error := Err (msg : string).

(** ** Package [ast] *)

Module ast.

(** [ast.WalkStatus]: the two directives a visit callback of this
    extension hands back to the traversal. *)
Inductive WalkStatus := WalkSkipChildren | WalkContinue.

(** An attribute value is an [interface{}]: a byte slice, a string, or a
    value of any other dynamic type. *)
Inductive AttrValue :=
| Bytes (b : bytes)
| Str (s : string)
| OtherValue.

(** [ast.Attribute] *)
Record Attribute := { Name : string; Value : AttrValue }.

(** The kind-specific fields of a node.  [Anchor] carries the fields of
    the extension's own node type. *)
Inductive Payload :=
| Document
| PHeading (Level : Z)
| PAnchor (ID : bytes) (Level : Z) (Value : bytes)
| POther (kind : string).

(** [ast.Node]: a node owns the ordered list of its children. *)
Unset Elimination Schemes.
Inductive Node :=
  mkNode (payload : Payload) (attributes : list Attribute) (children : list Node).
Set Elimination Schemes.

Definition payload (n : Node) : Payload := let 'mkNode p _ _ := n in p.
Definition attributes (n : Node) : list Attribute := let 'mkNode _ a _ := n in a.
Definition children (n : Node) : list Node := let 'mkNode _ _ c := n in c.

(** [ast.BaseNode], the part every node type embeds. *)
Record BaseNode := { battributes : list Attribute; bchildren : list Node }.

Definition emptyBase : BaseNode := {| battributes := []; bchildren := [] |}.

(** [ast.Heading] *)
Record Heading := { BaseBlock : BaseNode; Level : Z }.

(** The type assertion of [n] to a heading pointer, with its [ok] flag. *)
Definition asHeading (n : Node) : option Heading :=
  match n with
  | mkNode (PHeading l) a c =>
      Some {| BaseBlock := {| battributes := a; bchildren := c |}; Level := l |}
  | _ => None
  end.

(** A heading seen through the [ast.Node] interface again. *)
Definition ofHeading (h : Heading) : Node :=
  mkNode (PHeading (Level h)) (battributes (BaseBlock h)) (bchildren (BaseBlock h)).

Definition isHeading (n : Node) : bool :=
  match payload n with PHeading _ => true | _ => false end.

Definition isAnchor (n : Node) : bool :=
  match payload n with PAnchor _ _ _ => true | _ => false end.

(** *** Attribute getter and setter *)

Fixpoint lookupAttr (name : string) (l : list Attribute) : option AttrValue :=
  match l with
  | [] => None
  | a :: l' => if String.eqb (Name a) name then Some (Value a) else lookupAttr name l'
  end.

Fixpoint storeAttr (name : string) (v : AttrValue) (l : list Attribute) : list Attribute :=
  match l with
  | [] => [{| Name := name; Value := v |}]
  | a :: l' =>
      if String.eqb (Name a) name then {| Name := name; Value := v |} :: l'
      else a :: storeAttr name v l'
  end.

(** Modelled from the spec: [BaseNode.AttributeString], the getter of the
    tree node's "string-or-bytes attribute getter/setter keyed by name";
    the second result of the Go method is the [Some]/[None] of the
    option. *)
Definition AttributeString (b : BaseNode) (name : string) : option AttrValue :=
  lookupAttr name (battributes b).

(** Modelled from the spec: [BaseNode.SetAttributeString], the setter of
    the same pair; a name already present keeps its slot and takes the new
    value, a new name goes to the end. *)
Definition SetAttributeString (b : BaseNode) (name : string) (v : AttrValue) : BaseNode :=
  {| battributes := storeAttr name v (battributes b); bchildren := bchildren b |}.

(** *** Children *)

(** Modelled from the spec: [BaseNode.ChildCount], part of the tree node's
    "parent/child/sibling navigation". *)
Definition ChildCount (b : BaseNode) : Z := len (bchildren b).

(** Modelled from the spec: [BaseNode.FirstChild] and [BaseNode.LastChild]
    of the same navigation.  A child is referred to by its position among
    its siblings; [None] is the [nil] node. *)
Definition FirstChild (b : BaseNode) : option nat :=
  match bchildren b with [] => None | _ :: _ => Some 0%nat end.

Definition LastChild (b : BaseNode) : option nat :=
  match bchildren b with [] => None | _ :: t => Some (length t) end.

(** Modelled from the spec: [BaseNode.AppendChild], the tree node's
    "append-child". *)
Definition AppendChild (b : BaseNode) (child : Node) : BaseNode :=
  {| battributes := battributes b; bchildren := bchildren b ++ [child] |}.

(** Modelled from the spec: [BaseNode.InsertBefore], the tree node's
    "insert-before ... relative to a sibling"; with no sibling given the
    insertee goes to the end. *)
Definition InsertBefore (b : BaseNode) (v1 : option nat) (insertee : Node) : BaseNode :=
  match v1 with
  | None => AppendChild b insertee
  | Some i =>
      {| battributes := battributes b;
         bchildren := firstn i (bchildren b) ++ insertee :: skipn i (bchildren b) |}
  end.

(** The sibling that follows child [i], [nil] after the last one. *)
Definition NextSibling (b : BaseNode) (i : nat) : option nat :=
  if Nat.ltb (S i) (length (bchildren b)) then Some (S i) else None.

(** Modelled from the spec: [BaseNode.InsertAfter], the tree node's
    "insert-after relative to a sibling": the insertee goes in front of
    the sibling's successor. *)
Definition InsertAfter (b : BaseNode) (v1 : option nat) (insertee : Node) : BaseNode :=
  match v1 with
  | None => AppendChild b insertee
  | Some i => InsertBefore b (NextSibling b i) insertee
  end.

(** *** Traversal *)

(** [ast.Walker].  A callback may change the node it is handed in place;
    the embedding returns the node as the callback leaves it. *)
Definition Walker := Node -> bool -> Node * WalkStatus * option error.

(** Where a node sits: the child positions from the root down. *)
Definition path := list nat.

(** The calls a traversal makes, in order: which node and whether it is
    being entered.  The log is kept for the statements about visiting
    order only; it feeds back into nothing. *)
Definition trace := list (path * bool).

(** Modelled from the spec: [ast.Walk], the "pre-order walk with an
    enter/exit callback; callback returns one of {continue, skip-subtree};
    walk as a whole may fail, aborting remaining visits".  The children
    that are walked are those the node has after its enter call.  A
    callback can keep growing the tree below the node it is given, so the
    recursion is bounded by [fuel]; [None] stands for a walk that is still
    running when the bound is reached. *)
Fixpoint walkHelper (fuel : nat) (walker : Walker) (p : path) (n : Node) (tr : trace)
  : option (Node * option error * trace) :=
  match fuel with
  | O => None
  | S fuel' =>
      let '(n1, status, err) := walker n true in
      let tr1 := tr ++ [(p, true)] in
      match err with
      | Some e => Some (n1, Some e, tr1)
      | None =>
          let walked :=
            match status with
            | WalkSkipChildren => Some (children n1, None, tr1)
            | WalkContinue =>
                (fix walkChildren (i : nat) (cs : list Node) (tr : trace)
                   : option (list Node * option error * trace) :=
                   match cs with
                   | [] => Some ([], None, tr)
                   | c :: cs' =>
                       match walkHelper fuel' walker (p ++ [i]) c tr with
                       | None => None
                       | Some (c', Some e, tr') => Some (c' :: cs', Some e, tr')
                       | Some (c', None, tr') =>
                           match walkChildren (S i) cs' tr' with
                           | None => None
                           | Some (cs'', err', tr'') => Some (c' :: cs'', err', tr'')
                           end
                       end
                   end) O (children n1) tr1
            end in
          match walked with
          | None => None
          | Some (cs, Some e, tr2) =>
              Some (mkNode (payload n1) (attributes n1) cs, Some e, tr2)
          | Some (cs, None, tr2) =>
              let n2 := mkNode (payload n1) (attributes n1) cs in
              let '(n3, _, err3) := walker n2 false in
              Some (n3, err3, tr2 ++ [(p, false)])
          end
      end
  end.

Definition Walk (fuel : nat) (n : Node) (walker : Walker)
  : option (Node * option error * trace) :=
  walkHelper fuel walker [] n [].

(** The node found by following a path from [n]. *)
Fixpoint nodeAt (n : Node) (p : path) : option Node :=
  match p with
  | [] => Some n
  | i :: p' =>
      match nth_error (children n) i with
      | Some c => nodeAt c p'
      | None => None
      end
  end.

(** Number of levels below a node. *)
Fixpoint height (n : Node) : nat :=
  match n with
  | mkNode _ _ cs =>
      (fix heights (l : list Node) : nat :=
         match l with
         | [] => O
         | c :: l' => Nat.max (S (height c)) (heights l')
         end) cs
  end.

End ast.

(** ** Package [util] and [renderer/html] *)

(** What goldmark's escaping and attribute serialization produce is not
    fixed here: every statement below holds for any choice of the two
    functions.  [EscapeHTML] is [util.EscapeHTML]; [attributeBytes] is the
    text [html.RenderAttributes] produces for an attribute list. *)
Class Markup := {
  EscapeHTML : bytes -> bytes;
  attributeBytes : list ast.Attribute -> bytes
}.

Module util.

(** Modelled from the spec: [util.BufWriter], the "shared sink supporting
    byte and string writes"; the sink is the bytes written so far, a write
    adds to their end and reports no error. *)
Definition BufWriter := bytes.

Definition WriteByte (w : BufWriter) (c : byte) : BufWriter * option error :=
  (w ++ [c], None).

Definition Write (w : BufWriter) (p : bytes) : BufWriter * (Z * option error) :=
  (w ++ p, (len p, None)).

Definition WriteString (w : BufWriter) (s : string) : BufWriter * (Z * option error) :=
  (w ++ bytes_of_string s, (len (bytes_of_string s), None)).

End util.

Module html.

(** Modelled from the spec: [html.RenderAttributes], the "attribute
    serialization helper: given a node's attribute map, writes
    name=escaped-value pairs to the sink".  The filter argument, [nil] at
    the one call site, is left out. *)
Definition RenderAttributes `{Markup} (w : util.BufWriter) (node : ast.Node) : util.BufWriter :=
  fst (util.Write w (attributeBytes (ast.attributes node))).

End html.

(** ** Package [extension]: the anchor extension *)

(** [Position] is an [int]; [After] and [Before] are its two named
    values. *)
Definition Position := Z.
Definition After : Position := 0%Z.
Definition Before : Position := 1%Z.

(** [HeaderInfo]; the Go fields are [Level] and [ID]. *)
Record HeaderInfo := { info_Level : Z; info_ID : bytes }.

(** The [Texter] interface with its one method. *)
Record Texter := { AnchorText : HeaderInfo -> bytes }.

Definition textTexter := bytes.

Definition textTexter_AnchorText (t : textTexter) (_ : HeaderInfo) : bytes := t.

Definition Text (s : string) : Texter :=
  {| AnchorText := textTexter_AnchorText (bytes_of_string s) |}.

(** A [map[string]string], as the entries [range] yields and in that order
    (Go leaves the order open).  A value stands for one [range] over the
    map; another [range] over the same map may yield another order and is
    then another value. *)
Definition string_map := list (string * string).

(** The [Attributer] interface with its one method.  [AnchorAttributes]
    gives the pairs as the [range] in [transform] meets them in one pass; a
    second pass has a value of its own (see [samePolicies]). *)
Record Attributer := { AnchorAttributes : HeaderInfo -> string_map }.

Definition Attributes := string_map.

Definition Attributes_AnchorAttributes (as_ : Attributes) (_ : HeaderInfo) : string_map := as_.

Definition Attributes_Attributer (as_ : Attributes) : Attributer :=
  {| AnchorAttributes := Attributes_AnchorAttributes as_ |}.

(** The pilcrow sign, two bytes in UTF-8. *)
Definition pilcrow : string :=
  String (ascii_of_nat 194) (String (ascii_of_nat 182) EmptyString).

Definition _defaultTexter : Texter := Text pilcrow.

Definition _defaultAttributer : Attributer :=
  Attributes_Attributer [("class"%string, "anchor"%string)].

(** [Node], the anchor node. *)
Record Node := {
  BaseInline : ast.BaseNode;
  ID : bytes;
  Level : Z;
  Value : bytes
}.

(** An anchor node seen through the [ast.Node] interface. *)
Definition ofNode (n : Node) : ast.Node :=
  ast.mkNode (ast.PAnchor (ID n) (Level n) (Value n))
    (ast.battributes (BaseInline n)) (ast.bchildren (BaseInline n)).

(** The type assertion of an [ast.Node] to an anchor pointer; without the
    [ok] flag the Go assertion panics where this is [None]. *)
Definition asNode (n : ast.Node) : option Node :=
  match n with
  | ast.mkNode (ast.PAnchor id l v) a c =>
      Some {| BaseInline := {| ast.battributes := a; ast.bchildren := c |};
              ID := id; Level := l; Value := v |}
  | _ => None
  end.

(** [n.SetAttributeString(name, value)] on an anchor node. *)
Definition Node_SetAttributeString (n : Node) (name : string) (value : ast.AttrValue) : Node :=
  {| BaseInline := ast.SetAttributeString (BaseInline n) name value;
     ID := ID n; Level := Level n; Value := Value n |}.

(** A heading whose embedded base node has been changed in place. *)
Definition Heading_setBase (h : ast.Heading) (b : ast.BaseNode) : ast.Heading :=
  {| ast.BaseBlock := b; ast.Level := ast.Level h |}.

Module transform.

(** [transform] holds state for a single transformation traversal. *)
Record t := { Texter : Texter; Position : Position; Attributer : Attributer }.

Definition transform (t : t) (h : ast.Heading) : ast.Heading :=
  match ast.AttributeString (ast.BaseBlock h) "id" with
  | None => h
  | Some idattr =>
      match idattr with
      | ast.Bytes id =>
          let info := {| info_Level := ast.Level h; info_ID := id |} in
          let text := AnchorText (Texter t) info in
          if (len text =? 0)%Z then h
          else
            let n := {| BaseInline := ast.emptyBase;
                        ID := id; Level := ast.Level h; Value := text |} in
            let n := fold_left
                       (fun n (kv : string * string) =>
                          Node_SetAttributeString n (fst kv)
                            (ast.Bytes (bytes_of_string (snd kv))))
                       (AnchorAttributes (Attributer t) info) n in
            let b := ast.BaseBlock h in
            if (ast.ChildCount b =? 0)%Z
            then Heading_setBase h (ast.AppendChild b (ofNode n))
            else if (Position t =? Before)%Z
            then Heading_setBase h (ast.InsertBefore b (ast.FirstChild b) (ofNode n))
            else Heading_setBase h (ast.InsertAfter b (ast.LastChild b) (ofNode n))
      | _ => h
      end
  end.

Definition Visit (t : t) (n : ast.Node) (enter : bool)
  : ast.Node * ast.WalkStatus * option error :=
  if negb enter then (n, ast.WalkContinue, None)
  else
    match ast.asHeading n with
    | None => (n, ast.WalkContinue, None)
    | Some h => (ast.ofHeading (transform t h), ast.WalkSkipChildren, None)
    end.

End transform.

Module Transformer.

(** [Transformer]; an unset policy is a [nil] interface value. *)
Record t := {
  Texter : option Texter;
  Position : Position;
  Attributer : option Attributer
}.

(** The [transform] value that [Transform] builds, defaults filled in. *)
Definition newTransform (t : t) : transform.t :=
  let tr := {| transform.Texter := match Texter t with Some x => x | None => _defaultTexter end;
               transform.Position := Position t;
               transform.Attributer :=
                 match Attributer t with Some x => x | None => _defaultAttributer end |} in
  tr.

(** The call [ast.Walk(doc, tr.Visit)] inside [Transform], with everything
    it hands back. *)
Definition walk (fuel : nat) (t : t) (doc : ast.Node)
  : option (ast.Node * option error * ast.trace) :=
  ast.Walk fuel doc (transform.Visit (newTransform t)).

(** [Transform]: the document as the walk leaves it; the walk's error is
    dropped.  The reader and the parser context are not used. *)
Definition Transform (fuel : nat) (t : t) (doc : ast.Node) : option ast.Node :=
  match walk fuel t doc with
  | Some (doc', _, _) => Some doc'
  | None => None
  end.

End Transformer.

(** What a Go call comes to: it returns, or a run-time panic unwinds it. *)
Inductive outcome (A : Type) :=
| returns (a : A)
| panics.
Arguments panics {A}.

Definition dquote : string := String (ascii_of_nat 34) EmptyString.

Module Renderer.

(** [Renderer] renders anchor nodes. *)
Record t := { Position : Position; Unsafe : bool }.

(** Deferred calls of a function body run when it returns, last one
    first. *)
Fixpoint runDeferred (ds : list (util.BufWriter -> util.BufWriter)) (w : util.BufWriter)
  : util.BufWriter :=
  match ds with
  | [] => w
  | d :: ds' => runDeferred ds' (d w)
  end.

(** [RenderNode]; the source-text argument is not used. *)
Definition RenderNode `{Markup} (r : t) (w : util.BufWriter) (node : ast.Node) (entering : bool)
  : outcome (util.BufWriter * ast.WalkStatus * option error) :=
  if negb (Bool.eqb (Position r =? Before)%Z entering)
  then returns (w, ast.WalkContinue, None)
  else
    match asNode node with
    | None => panics
    | Some n =>
        if (len (ID n) =? 0)%Z then returns (w, ast.WalkContinue, None)
        else
          let '(w, deferred) :=
            if (Position r =? Before)%Z
            then (w, [fun w => fst (util.WriteByte w " "%byte)])
            else (fst (util.WriteByte w " "%byte), []) in
          let w := fst (util.WriteString w "<a") in
          let w := html.RenderAttributes w node in
          let w := fst (util.WriteString w (" href=" ++ dquote ++ "#")%string) in
          let w := fst (util.Write w (EscapeHTML (ID n))) in
          let w := fst (util.WriteString w (dquote ++ ">")%string) in
          let w :=
            if Unsafe r
            then fst (util.Write w (Value n))
            else fst (util.Write w (EscapeHTML (Value n))) in
          let w := fst (util.WriteString w "</a>") in
          returns (runDeferred deferred w, ast.WalkContinue, None)
    end.

End Renderer.

(** ** Induction over trees *)

(** Structural induction on [ast.Node] with the hypothesis for every
    child. *)
Fixpoint Node_forall_ind (P : ast.Node -> Prop)
  (step : forall p a cs, Forall P cs -> P (ast.mkNode p a cs)) (n : ast.Node) : P n :=
  match n with
  | ast.mkNode p a cs =>
      step p a cs
        ((fix all (l : list ast.Node) : Forall P l :=
            match l with
            | [] => Forall_nil P
            | c :: l' => Forall_cons c (Node_forall_ind step c) (all l')
            end) cs)
  end.

(** ** The pass as a function of the tree *)

(** What one pass makes of a tree: a heading is handed to
    [transform.transform] and its children are left alone, any other node
    keeps its fields and has its children rewritten in turn. *)
Fixpoint decorate (tr : transform.t) (n : ast.Node) : ast.Node :=
  match n with
  | ast.mkNode (ast.PHeading l) a cs =>
      ast.ofHeading
        (transform.transform tr
           {| ast.BaseBlock := {| ast.battributes := a; ast.bchildren := cs |};
              ast.Level := l |})
  | ast.mkNode p a cs => ast.mkNode p a (map (decorate tr) cs)
  end.

(** The calls of one pass below and at the node that sits at [p]. *)
Fixpoint visits (p : ast.path) (n : ast.Node) : ast.trace :=
  match n with
  | ast.mkNode pl _ cs =>
      (p, true)
        :: match pl with
           | ast.PHeading _ => []
           | _ =>
               (fix below (i : nat) (l : list ast.Node) : ast.trace :=
                  match l with
                  | [] => []
                  | c :: l' => visits (p ++ [i]) c ++ below (S i) l'
                  end) O cs
           end
        ++ [(p, false)]
  end.

(** How deep the pass goes: it stops at headings. *)
Fixpoint walkDepth (n : ast.Node) : nat :=
  match n with
  | ast.mkNode (ast.PHeading _) _ _ => O
  | ast.mkNode _ _ cs =>
      (fix depths (l : list ast.Node) : nat :=
         match l with
         | [] => O
         | c :: l' => Nat.max (S (walkDepth c)) (depths l')
         end) cs
  end.

(** [underHeading n p]: on the way from [n] along [p], some node before the
    last one is a heading. *)
Fixpoint underHeading (n : ast.Node) (p : ast.path) : bool :=
  match p with
  | [] => false
  | i :: p' =>
      ast.isHeading n
      || match nth_error (ast.children n) i with
         | Some c => underHeading c p'
         | None => false
         end
  end.

(** [cs'] is [cs] with one anchor node put in at some place. *)
Definition AnchorInserted (cs cs' : list ast.Node) : Prop :=
  exists l1 a l2, ast.isAnchor a = true /\ cs = l1 ++ l2 /\ cs' = l1 ++ a :: l2.

(** The anchor node [transform.transform] builds for identifier [id] and
    text [text] under a heading of level [l]. *)
Definition newAnchor (tr : transform.t) (l : Z) (id text : bytes) : Node :=
  fold_left
    (fun n (kv : string * string) =>
       Node_SetAttributeString n (fst kv) (ast.Bytes (bytes_of_string (snd kv))))
    (AnchorAttributes (transform.Attributer tr) {| info_Level := l; info_ID := id |})
    {| BaseInline := ast.emptyBase; ID := id; Level := l; Value := text |}.

(** The calls below the node at [p]: those for its children [l], the first
    of which is child number [i]. *)
Definition visitsFrom (p : ast.path) : nat -> list ast.Node -> ast.trace :=
  fix below (i : nat) (l : list ast.Node) : ast.trace :=
    match l with
    | [] => []
    | c :: l' => visits (p ++ [i]) c ++ below (S i) l'
    end.

(** The text the text policy of [t] returns for heading [h] when its
    identifier is [id]. *)
Definition policyText (t : transform.t) (h : ast.Heading) (id : bytes) : bytes :=
  AnchorText (transform.Texter t) {| info_Level := ast.Level h; info_ID := id |}.

(** The insertion rule with the identifier required to be non-empty: the
    heading at [p] gets an anchor exactly when its identifier attribute is a
    non-empty byte sequence and the policy text is non-empty. *)
Definition anchor_iff_nonempty_id_and_text
  (fuel : nat) (t : Transformer.t) (doc : ast.Node) (p : ast.path) (h : ast.Heading) : Prop :=
  exists doc' h',
    Transformer.Transform fuel t doc = Some doc' /\
    ast.nodeAt doc' p = Some (ast.ofHeading h') /\
    (AnchorInserted (ast.bchildren (ast.BaseBlock h)) (ast.bchildren (ast.BaseBlock h')) <->
     exists id,
       ast.AttributeString (ast.BaseBlock h) "id" = Some (ast.Bytes id) /\
       id <> [] /\
       policyText (Transformer.newTransform t) h id <> []).

(** ** Sample values *)

Definition defaultTransformer : Transformer.t :=
  {| Transformer.Texter := None; Transformer.Position := After;
     Transformer.Attributer := None |}.

Definition beforeTransformer : Transformer.t :=
  {| Transformer.Texter := Some (Text "#"); Transformer.Position := Before;
     Transformer.Attributer := None |}.

Definition textNode : ast.Node := ast.mkNode (ast.POther "Text") [] [].

(** A level-2 heading with identifier [intro] and one text child. *)
Definition introHeading : ast.Heading :=
  {| ast.BaseBlock :=
       {| ast.battributes :=
            [{| ast.Name := "id"; ast.Value := ast.Bytes (bytes_of_string "intro") |}];
          ast.bchildren := [textNode] |};
     ast.Level := 2 |}.

(** A heading whose identifier attribute is the empty byte sequence. *)
Definition emptyIdHeading : ast.Heading :=
  {| ast.BaseBlock :=
       {| ast.battributes := [{| ast.Name := "id"; ast.Value := ast.Bytes [] |}];
          ast.bchildren := [textNode] |};
     ast.Level := 1 |}.

Definition introDoc : ast.Node :=
  ast.mkNode ast.Document []
    [ast.mkNode (ast.POther "Paragraph") [] [textNode]; ast.ofHeading introHeading].

Definition emptyIdDoc : ast.Node :=
  ast.mkNode ast.Document [] [ast.ofHeading emptyIdHeading].

(** [h'] is [h] with nothing changed but, possibly, one anchor node put in
    front of or behind its children. *)
Definition anchorAtEnd (h h' : ast.Heading) : Prop :=
  ast.battributes (ast.BaseBlock h') = ast.battributes (ast.BaseBlock h) /\
  ast.Level h' = ast.Level h /\
  (ast.bchildren (ast.BaseBlock h') = ast.bchildren (ast.BaseBlock h) \/
   exists a, ast.isAnchor a = true /\
     (ast.bchildren (ast.BaseBlock h') = a :: ast.bchildren (ast.BaseBlock h) \/
      ast.bchildren (ast.BaseBlock h') = ast.bchildren (ast.BaseBlock h) ++ [a])).

(** The anchor element for anchor node [n]: opening tag with the node's
    attributes and the link target, the text, the closing tag. *)
Definition anchorElement `{Markup} (r : Renderer.t) (n : Node) : bytes :=
  bytes_of_string "<a"
  ++ attributeBytes (ast.battributes (BaseInline n))
  ++ bytes_of_string (" href=" ++ dquote ++ "#")
  ++ EscapeHTML (ID n)
  ++ bytes_of_string (dquote ++ ">")
  ++ (if Renderer.Unsafe r then Value n else EscapeHTML (Value n))
  ++ bytes_of_string "</a>".

(** An escaping function in the manner of goldmark's: the four characters
    that are special in markup become entities. *)
Definition escapeByte (b : byte) : bytes :=
  match b with
  | x26 => bytes_of_string "&amp;"
  | x3c => bytes_of_string "&lt;"
  | x3e => bytes_of_string "&gt;"
  | x22 => bytes_of_string "&quot;"
  | _ => [b]
  end.

Definition sampleEscapeHTML (b : bytes) : bytes := flat_map escapeByte b.

Definition sampleAttributeBytes (l : list ast.Attribute) : bytes :=
  flat_map
    (fun a =>
       bytes_of_string (" " ++ ast.Name a ++ "=" ++ dquote)
       ++ sampleEscapeHTML
            match ast.Value a with
            | ast.Bytes v => v
            | ast.Str s => bytes_of_string s
            | ast.OtherValue => []
            end
       ++ bytes_of_string dquote)
    l.

Definition sampleMarkup : Markup :=
  {| EscapeHTML := sampleEscapeHTML; attributeBytes := sampleAttributeBytes |}.

Definition afterRenderer : Renderer.t :=
  {| Renderer.Position := After; Renderer.Unsafe := false |}.

Definition beforeRenderer : Renderer.t :=
  {| Renderer.Position := Before; Renderer.Unsafe := true |}.

(** The anchor node the default policies make for [introHeading]. *)
Definition introAnchor : Node :=
  {| BaseInline :=
       {| ast.battributes :=
            [{| ast.Name := "class"; ast.Value := ast.Bytes (bytes_of_string "anchor") |}];
          ast.bchildren := [] |};
     ID := bytes_of_string "intro"; Level := 2; Value := bytes_of_string pilcrow |}.

(** An anchor node whose identifier and text hold markup characters. *)
Definition markupAnchor : Node :=
  {| BaseInline := ast.emptyBase;
     ID := bytes_of_string ("a" ++ dquote ++ "<b");
     Level := 1;
     Value := bytes_of_string "<i>go</i>" |}.

(** The call is the half of the enter/exit pair that the position uses:
    the entering one for [Before], the leaving one otherwise. *)
Definition ownHalf (r : Renderer.t) (entering : bool) : bool :=
  Bool.eqb (Renderer.Position r =? Before)%Z entering.

(** ** The rest of the extension *)

(** [Position.String], generated by [stringer]. *)
Definition _Position_name : string := "AfterBefore".

(** [_Position_index], an array of [uint8]. *)
Definition _Position_index : list Z := [0; 5; 11]%Z.

(** [a[i]] on an array: a run-time panic when [i] is out of range. *)
Definition indexArray (a : list Z) (i : Z) : outcome Z :=
  if ((0 <=? i) && (i <? len a))%Z
  then match nth_error a (Z.to_nat i) with
       | Some x => returns x
       | None => panics
       end
  else panics.

(** [s[lo:hi]] on a string: a run-time panic unless
    [0 <= lo <= hi <= len(s)]. *)
Definition sliceString (s : string) (lo hi : Z) : outcome string :=
  if ((0 <=? lo) && (lo <=? hi) && (hi <=? Z.of_nat (String.length s)))%Z
  then returns (substring (Z.to_nat lo) (Z.to_nat (hi - lo)) s)
  else panics.

(** [func (i Position) String() string].  [FormatInt] is
    [strconv.FormatInt], taken as given. *)
Definition Position_String (FormatInt : Z -> Z -> string) (i : Position) : outcome string :=
  if ((i <? 0) || (i >=? len _Position_index - 1))%Z
  then returns ("Position(" ++ FormatInt i 10%Z ++ ")")%string
  else
    match indexArray _Position_index i, indexArray _Position_index (i + 1) with
    | returns lo, returns hi => sliceString _Position_name lo hi
    | _, _ => panics
    end.

Module AnchorExtender.

(** [AnchorExtender]; an unset policy is a [nil] interface value. *)
Record t := {
  Texter : option Texter;
  Position : Position;
  Attributer : option Attributer;
  Unsafe : bool
}.

(** The [Transformer] literal in [Extend]. *)
Definition newTransformer (e : t) : Transformer.t :=
  {| Transformer.Texter := Texter e;
     Transformer.Position := Position e;
     Transformer.Attributer := Attributer e |}.

(** The [Renderer] literal in [Extend]. *)
Definition newRenderer (e : t) : Renderer.t :=
  {| Renderer.Position := Position e; Renderer.Unsafe := Unsafe e |}.

End AnchorExtender.

(** Modelled from the spec: [goldmark.Markdown] as far as the installation
    contract goes, "one AST-transform participant" and "one node-render
    participant", each "at a fixed relative priority": the participants
    registered so far with their priorities. *)
Record Markdown := {
  ASTTransformers : list (Transformer.t * Z);
  NodeRenderers : list (Renderer.t * Z)
}.

(** [func (e AnchorExtender) Extend(md goldmark.Markdown)] *)
Definition Extend (e : AnchorExtender.t) (md : Markdown) : Markdown :=
  {| ASTTransformers := ASTTransformers md ++ [(AnchorExtender.newTransformer e, 100%Z)];
     NodeRenderers := NodeRenderers md ++ [(AnchorExtender.newRenderer e, 100%Z)] |}.

(** The attribute a pair of the attribute policy becomes on the anchor
    node. *)
Definition pairAttribute (kv : string * string) : ast.Attribute :=
  {| ast.Name := fst kv; ast.Value := ast.Bytes (bytes_of_string (snd kv)) |}.

(** What [RenderNode] writes for anchor node [n] over its enter call and
    its exit call together. *)
Definition anchorMarkup `{Markup} (r : Renderer.t) (n : Node) : bytes :=
  match ID n with
  | [] => []
  | _ :: _ =>
      if (Renderer.Position r =? Before)%Z
      then anchorElement r n ++ [" "%byte]
      else " "%byte :: anchorElement r n
  end.

(** Sample values *)

Definition noTextTransformer : Transformer.t :=
  {| Transformer.Texter := Some (Text ""); Transformer.Position := Before;
     Transformer.Attributer := None |}.

Definition twoAttributes : Attributer :=
  Attributes_Attributer [("class"%string, "permalink"%string); ("rel"%string, "self"%string)].

Definition twoAttributesTransform : transform.t :=
  {| transform.Texter := Text "#"; transform.Position := Before;
     transform.Attributer := twoAttributes |}.

Definition sampleExtender : AnchorExtender.t :=
  {| AnchorExtender.Texter := None; AnchorExtender.Position := After;
     AnchorExtender.Attributer := None; AnchorExtender.Unsafe := false |}.

(** A stand-in for [strconv.FormatInt] that prints every number alike. *)
Definition sampleFormatInt (_ _ : Z) : string := "n".

(** ** Rendering a heading's children *)

(** Modelled from the spec: the render dispatch, which "calls a registered
    function once per enter and once per exit of a matched node kind;
    function returns {continue} or a failure, writing bytes to a shared
    sink".  For an anchor node the registered function is [RenderNode];
    between its two calls the node's children are rendered unless the enter
    call asked to skip them, and a failure ends the rendering.  What the
    host's own renderers write for a node of another kind, from entering it
    to leaving it, is not fixed here: it is [hostBytes] of the node. *)
Fixpoint renderTree `{Markup} (hostBytes : ast.Node -> bytes) (r : Renderer.t)
  (n : ast.Node) (w : util.BufWriter) : outcome (util.BufWriter * option error) :=
  match n with
  | ast.mkNode pl a cs =>
      if ast.isAnchor (ast.mkNode pl a cs)
      then
        match Renderer.RenderNode r w (ast.mkNode pl a cs) true with
        | panics => panics
        | returns (w1, _, Some e) => returns (w1, Some e)
        | returns (w1, status, None) =>
            let below :=
              match status with
              | ast.WalkSkipChildren => returns (w1, None)
              | ast.WalkContinue =>
                  (fix each (l : list ast.Node) (w : util.BufWriter)
                     : outcome (util.BufWriter * option error) :=
                     match l with
                     | [] => returns (w, None)
                     | c :: l' =>
                         match renderTree hostBytes r c w with
                         | panics => panics
                         | returns (w', Some e) => returns (w', Some e)
                         | returns (w', None) => each l' w'
                         end
                     end) cs w1
              end in
            match below with
            | panics => panics
            | returns (w2, Some e) => returns (w2, Some e)
            | returns (w2, None) =>
                match Renderer.RenderNode r w2 (ast.mkNode pl a cs) false with
                | panics => panics
                | returns (w3, _, err) => returns (w3, err)
                end
            end
        end
      else returns (w ++ hostBytes (ast.mkNode pl a cs), None)
  end.

(** The same dispatch over a list of siblings, in order. *)
Fixpoint renderChildren `{Markup} (hostBytes : ast.Node -> bytes) (r : Renderer.t)
  (l : list ast.Node) (w : util.BufWriter) : outcome (util.BufWriter * option error) :=
  match l with
  | [] => returns (w, None)
  | c :: l' =>
      match renderTree hostBytes r c w with
      | panics => panics
      | returns (w', Some e) => returns (w', Some e)
      | returns (w', None) => renderChildren hostBytes r l' w'
      end
  end.

(** ** One transformer in two passes *)

(** [t2] is what [t1] is in a later pass: the same text policy and position,
    and an attribute policy with the same pairs for every heading, in
    whatever order the later [range] over the map yields them. *)
Definition samePolicies (t1 t2 : Transformer.t) : Prop :=
  Transformer.Texter t2 = Transformer.Texter t1 /\
  Transformer.Position t2 = Transformer.Position t1 /\
  forall info,
    Permutation
      (AnchorAttributes (transform.Attributer (Transformer.newTransform t1)) info)
      (AnchorAttributes (transform.Attributer (Transformer.newTransform t2)) info).

(** Sample values: one transformer with two attributes, as a first pass and
    as a second pass see its map, and a host that renders a text node as
    the word [Intro]. *)
Definition classThenRel : Transformer.t :=
  {| Transformer.Texter := Some (Text "#"); Transformer.Position := After;
     Transformer.Attributer :=
       Some (Attributes_Attributer
               [("class"%string, "anchor"%string); ("rel"%string, "self"%string)]) |}.

Definition relThenClass : Transformer.t :=
  {| Transformer.Texter := Some (Text "#"); Transformer.Position := After;
     Transformer.Attributer :=
       Some (Attributes_Attributer
               [("rel"%string, "self"%string); ("class"%string, "anchor"%string)]) |}.

Definition sampleHostBytes (n : ast.Node) : bytes :=
  match ast.payload n with
  | ast.POther "Text" => bytes_of_string "Intro"
  | _ => []
  end.

(** * Proofs *)

Unset Implicit Arguments.

Lemma walkDepth_child : forall p a cs c,
  ast.isHeading (ast.mkNode p a cs) = false -> In c cs ->
  (S (walkDepth c) <= walkDepth (ast.mkNode p a cs))%nat.
Proof.
  intros p a cs c Hh Hin.
  assert (Hd : forall l, In c l ->
            (S (walkDepth c) <=
             (fix depths (l : list ast.Node) : nat :=
                match l with
                | [] => O
                | c :: l' => Nat.max (S (walkDepth c)) (depths l')
                end) l)%nat).
  { induction l as [|x l IH]; intros Hl; [destruct Hl|].
    destruct Hl as [->|Hl]; [lia|]. specialize (IH Hl). lia. }
  destruct p; simpl in *; try discriminate; apply Hd; exact Hin.
Qed.

Lemma walkHelper_Visit : forall t fuel n p tr0,
  (walkDepth n < fuel)%nat ->
  ast.walkHelper fuel (transform.Visit t) p n tr0
  = Some (decorate t n, None, tr0 ++ visits p n).
Proof.
  intros t fuel. induction fuel as [|fuel IH]; intros n p tr0 Hd; [lia|].
  destruct n as [pl a cs].
  assert (Hloop : ast.isHeading (ast.mkNode pl a cs) = false ->
    forall l i tr1, (forall c, In c l -> In c cs) ->
      (fix walkChildren (i : nat) (cs : list ast.Node) (tr : ast.trace)
         : option (list ast.Node * option error * ast.trace) :=
         match cs with
         | [] => Some ([], None, tr)
         | c :: cs' =>
             match ast.walkHelper fuel (transform.Visit t) (p ++ [i]) c tr with
             | None => None
             | Some (c', Some e, tr') => Some (c' :: cs', Some e, tr')
             | Some (c', None, tr') =>
                 match walkChildren (S i) cs' tr' with
                 | None => None
                 | Some (cs'', err', tr'') => Some (c' :: cs'', err', tr'')
                 end
             end
         end) i l tr1
      = Some (map (decorate t) l, None,
              tr1 ++ (fix below (i : nat) (l : list ast.Node) : ast.trace :=
                        match l with
                        | [] => []
                        | c :: l' => visits (p ++ [i]) c ++ below (S i) l'
                        end) i l)).
  { intros Hh l. induction l as [|c l IHl]; intros i tr1 Hsub.
    - rewrite app_nil_r. reflexivity.
    - rewrite IH.
      + rewrite IHl by (intros; apply Hsub; right; assumption).
        rewrite <- app_assoc. reflexivity.
      + pose proof (walkDepth_child pl a cs c Hh (Hsub c (or_introl eq_refl))). lia. }
  destruct pl; simpl.
  all: try (rewrite Hloop by (reflexivity || auto); simpl;
            rewrite <- !app_assoc; reflexivity).
  rewrite <- !app_assoc. reflexivity.
Qed.

Lemma walkDepth_le_height : forall n, (walkDepth n <= ast.height n)%nat.
Proof.
  induction n as [p a cs IH] using Node_forall_ind.
  assert (Hl : ((fix depths (l : list ast.Node) : nat :=
                   match l with
                   | [] => O
                   | c :: l' => Nat.max (S (walkDepth c)) (depths l')
                   end) cs
                <= (fix heights (l : list ast.Node) : nat :=
                      match l with
                      | [] => O
                      | c :: l' => Nat.max (S (ast.height c)) (heights l')
                      end) cs)%nat).
  { induction IH as [|c l Hc _ IHl]; [lia|]. cbn -[Nat.max]. lia. }
  destruct p; cbn -[Nat.max]; lia.
Qed.

Lemma asHeading_ofHeading : forall h, ast.asHeading (ast.ofHeading h) = Some h.
Proof. intros [[a c] l]. reflexivity. Qed.

Lemma asHeading_Some : forall n h, ast.asHeading n = Some h -> n = ast.ofHeading h.
Proof.
  intros [p a c] h. destruct p; simpl; try discriminate.
  intros H. injection H as <-. reflexivity.
Qed.

Lemma decorate_ofHeading : forall t h,
  decorate t (ast.ofHeading h) = ast.ofHeading (transform.transform t h).
Proof. intros t [[a c] l]. reflexivity. Qed.

Lemma decorate_not_heading : forall t n,
  ast.isHeading n = false ->
  decorate t n = ast.mkNode (ast.payload n) (ast.attributes n) (map (decorate t) (ast.children n)).
Proof. intros t [p a c]. destruct p; simpl; try reflexivity; discriminate. Qed.

(** *** What [transform.transform] does to one heading *)

Lemma len_zero : forall (A : Type) (l : list A), (len l =? 0)%Z = true <-> l = [].
Proof.
  intros A l. unfold len. destruct l; simpl; split; intros H;
    try reflexivity; try discriminate; lia.
Qed.

Lemma transform_no_id : forall t h,
  ast.AttributeString (ast.BaseBlock h) "id" = None -> transform.transform t h = h.
Proof. intros t h H. unfold transform.transform. rewrite H. reflexivity. Qed.

Lemma transform_id_not_bytes : forall t h v,
  ast.AttributeString (ast.BaseBlock h) "id" = Some v ->
  (forall id, v <> ast.Bytes id) -> transform.transform t h = h.
Proof.
  intros t h v H Hv. unfold transform.transform. rewrite H.
  destruct v; try reflexivity. exfalso. apply (Hv b). reflexivity.
Qed.

Lemma transform_no_text : forall t h id,
  ast.AttributeString (ast.BaseBlock h) "id" = Some (ast.Bytes id) ->
  AnchorText (transform.Texter t) {| info_Level := ast.Level h; info_ID := id |} = [] ->
  transform.transform t h = h.
Proof. intros t h id H Ht. unfold transform.transform. rewrite H, Ht. reflexivity. Qed.

Lemma transform_inserts : forall t h id,
  ast.AttributeString (ast.BaseBlock h) "id" = Some (ast.Bytes id) ->
  AnchorText (transform.Texter t) {| info_Level := ast.Level h; info_ID := id |} <> [] ->
  let a := ofNode (newAnchor t (ast.Level h) id
                     (AnchorText (transform.Texter t)
                        {| info_Level := ast.Level h; info_ID := id |})) in
  transform.transform t h
  = {| ast.BaseBlock :=
         {| ast.battributes := ast.battributes (ast.BaseBlock h);
            ast.bchildren :=
              if (transform.Position t =? Before)%Z
              then a :: ast.bchildren (ast.BaseBlock h)
              else ast.bchildren (ast.BaseBlock h) ++ [a] |};
       ast.Level := ast.Level h |}.
Proof.
  intros t h id Hid Htext a. unfold transform.transform. rewrite Hid.
  destruct (len _ =? 0)%Z eqn:Hlen; [apply len_zero in Hlen; contradiction|].
  fold (newAnchor t (ast.Level h) id
          (AnchorText (transform.Texter t) {| info_Level := ast.Level h; info_ID := id |})).
  fold a. destruct h as [[attrs cs] l]; simpl in *.
  unfold ast.ChildCount, Heading_setBase; simpl.
  destruct cs as [|c cs]; simpl.
  - destruct (transform.Position t =? Before)%Z; reflexivity.
  - destruct (transform.Position t =? Before)%Z; simpl; [reflexivity|].
    unfold ast.InsertAfter, ast.LastChild, ast.NextSibling; simpl.
    rewrite Nat.ltb_irrefl. reflexivity.
Qed.

Lemma newAnchor_payload : forall t l id text,
  ast.payload (ofNode (newAnchor t l id text)) = ast.PAnchor id l text.
Proof.
  intros t l id text. unfold newAnchor.
  set (n0 := {| BaseInline := ast.emptyBase; ID := id; Level := l; Value := text |}).
  assert (H : forall kvs n,
            ast.payload (ofNode (fold_left
              (fun n (kv : string * string) =>
                 Node_SetAttributeString n (fst kv) (ast.Bytes (bytes_of_string (snd kv))))
              kvs n)) = ast.payload (ofNode n)).
  { induction kvs as [|kv kvs IH]; intros n; cbn [fold_left]; [reflexivity|].
    rewrite IH. reflexivity. }
  rewrite H. reflexivity.
Qed.

Lemma newAnchor_isAnchor : forall t l id text,
  ast.isAnchor (ofNode (newAnchor t l id text)) = true.
Proof. intros. unfold ast.isAnchor. rewrite newAnchor_payload. reflexivity. Qed.

(** *** Following a path through a decorated tree *)

Lemma nodeAt_decorate : forall t n p,
  underHeading n p = false ->
  ast.nodeAt (decorate t n) p = option_map (decorate t) (ast.nodeAt n p).
Proof.
  intros t n. induction n as [pl a cs IH] using Node_forall_ind.
  intros [|i p] Hu; [reflexivity|].
  simpl in Hu. apply orb_false_iff in Hu. destruct Hu as [Hh Hu].
  rewrite decorate_not_heading by exact Hh. simpl.
  rewrite nth_error_map. destruct (nth_error cs i) as [c|] eqn:Hc; [|reflexivity].
  simpl. rewrite Forall_forall in IH. apply IH; [|exact Hu].
  eapply nth_error_In; eassumption.
Qed.

Lemma isHeading_decorate : forall t n, ast.isHeading (decorate t n) = ast.isHeading n.
Proof. intros t [pl a cs]. destruct pl; reflexivity. Qed.

Lemma underHeading_decorate : forall t n p,
  underHeading (decorate t n) p = underHeading n p.
Proof.
  intros t n. induction n as [pl a cs IH] using Node_forall_ind.
  intros [|i p]; [reflexivity|].
  cbn [underHeading]. rewrite isHeading_decorate.
  destruct (ast.isHeading (ast.mkNode pl a cs)) eqn:Hh; [reflexivity|].
  rewrite decorate_not_heading by exact Hh. simpl.
  rewrite nth_error_map. destruct (nth_error cs i) as [c|] eqn:Hc; [|reflexivity].
  simpl. rewrite Forall_forall in IH. apply IH.
  eapply nth_error_In; eassumption.
Qed.

Lemma nodeAt_decorate_inv : forall t n p m',
  underHeading n p = false ->
  ast.nodeAt (decorate t n) p = Some m' ->
  exists m, ast.nodeAt n p = Some m /\ m' = decorate t m.
Proof.
  intros t n p m' Hu Hn. rewrite nodeAt_decorate in Hn by exact Hu.
  destruct (ast.nodeAt n p) as [m|]; [|discriminate].
  injection Hn as <-. exists m. split; reflexivity.
Qed.

Lemma transform_frame : forall t h, anchorAtEnd h (transform.transform t h).
Proof.
  intros t h.
  assert (Hsame : transform.transform t h = h -> anchorAtEnd h (transform.transform t h)).
  { intros ->. repeat split. left. reflexivity. }
  destruct (ast.AttributeString (ast.BaseBlock h) "id") as [v|] eqn:Hid;
    [|apply Hsame, transform_no_id; exact Hid].
  destruct v as [id| |];
    try (apply Hsame; eapply transform_id_not_bytes; [exact Hid|discriminate]).
  destruct (AnchorText (transform.Texter t) {| info_Level := ast.Level h; info_ID := id |})
    as [|c text] eqn:Htext;
    [apply Hsame; eapply transform_no_text; eassumption|].
  assert (Hne : AnchorText (transform.Texter t) {| info_Level := ast.Level h; info_ID := id |}
                <> []) by (rewrite Htext; discriminate).
  unfold anchorAtEnd. rewrite (transform_inserts t h id Hid Hne). simpl. repeat split.
  right. eexists. split; [apply newAnchor_isAnchor|].
  destruct (transform.Position t =? Before)%Z; [left|right]; reflexivity.
Qed.

Lemma walkDepth_decorate : forall t n, walkDepth (decorate t n) = walkDepth n.
Proof.
  intros t n. induction n as [pl a cs IH] using Node_forall_ind.
  assert (Hl : (fix depths (l : list ast.Node) : nat :=
                  match l with
                  | [] => O
                  | c :: l' => Nat.max (S (walkDepth c)) (depths l')
                  end) (map (decorate t) cs)
               = (fix depths (l : list ast.Node) : nat :=
                    match l with
                    | [] => O
                    | c :: l' => Nat.max (S (walkDepth c)) (depths l')
                    end) cs).
  { induction IH as [|c l Hc _ IHl]; [reflexivity|]. cbn -[Nat.max]. rewrite Hc, IHl. reflexivity. }
  destruct pl; simpl; try exact Hl. reflexivity.
Qed.

(** *** The pass, run with enough fuel *)

Lemma walk_enough_fuel : forall fuel t doc,
  (ast.height doc < fuel)%nat ->
  Transformer.walk fuel t doc
  = Some (decorate (Transformer.newTransform t) doc, None, visits [] doc).
Proof.
  intros fuel t doc Hf. unfold Transformer.walk, ast.Walk.
  rewrite walkHelper_Visit; [reflexivity|].
  pose proof (walkDepth_le_height doc). lia.
Qed.

Lemma Transform_enough_fuel : forall fuel t doc,
  (ast.height doc < fuel)%nat ->
  Transformer.Transform fuel t doc = Some (decorate (Transformer.newTransform t) doc).
Proof.
  intros fuel t doc Hf. unfold Transformer.Transform.
  rewrite walk_enough_fuel by exact Hf. reflexivity.
Qed.

Lemma Transform_walkDepth : forall fuel t doc,
  (walkDepth doc < fuel)%nat ->
  Transformer.Transform fuel t doc = Some (decorate (Transformer.newTransform t) doc).
Proof.
  intros fuel t doc Hf. unfold Transformer.Transform, Transformer.walk, ast.Walk.
  rewrite walkHelper_Visit by exact Hf. reflexivity.
Qed.

(** *** The order of calls *)

Lemma visits_eq : forall p pl a cs,
  visits p (ast.mkNode pl a cs)
  = (p, true)
      :: (if ast.isHeading (ast.mkNode pl a cs) then [] else visitsFrom p 0 cs)
      ++ [(p, false)].
Proof. intros p pl a cs. destruct pl; reflexivity. Qed.

Lemma visitsFrom_In : forall p x l i,
  In x (visitsFrom p i l) ->
  exists k c, nth_error l k = Some c /\ In x (visits (p ++ [(i + k)%nat]) c).
Proof.
  intros p x l. induction l as [|c l IH]; intros i Hin; [destruct Hin|].
  cbn [visitsFrom] in Hin. apply in_app_or in Hin. destruct Hin as [Hin|Hin].
  - exists O, c. rewrite Nat.add_0_r. split; [reflexivity|exact Hin].
  - destruct (IH (S i) Hin) as (k & c' & Hk & Hc').
    exists (S k), c'. rewrite Nat.add_succ_r. split; assumption.
Qed.

Lemma visitsFrom_split : forall p l i k c,
  nth_error l k = Some c ->
  exists l1 l2, visitsFrom p i l = l1 ++ visits (p ++ [(i + k)%nat]) c ++ l2.
Proof.
  intros p l. induction l as [|x l IH]; intros i k c Hk; [destruct k; discriminate|].
  destruct k as [|k]; cbn [visitsFrom].
  - injection Hk as ->. exists [], (visitsFrom p (S i) l).
    rewrite Nat.add_0_r. reflexivity.
  - destruct (IH (S i) k c Hk) as (l1 & l2 & E).
    exists (visits (p ++ [i]) x ++ l1), l2.
    rewrite Nat.add_succ_r. rewrite <- app_assoc. f_equal. exact E.
Qed.

Lemma visits_outside_headings : forall n p q e,
  In (q, e) (visits p n) ->
  exists s, q = p ++ s /\ underHeading n s = false /\ ast.nodeAt n s <> None.
Proof.
  induction n as [pl a cs IH] using Node_forall_ind. intros p q e Hin.
  rewrite visits_eq in Hin.
  assert (Hroot : exists s, p = p ++ s /\ underHeading (ast.mkNode pl a cs) s = false
                            /\ ast.nodeAt (ast.mkNode pl a cs) s <> None).
  { exists []. rewrite app_nil_r. repeat split. discriminate. }
  destruct Hin as [Hin|Hin]; [injection Hin as <- _; exact Hroot|].
  apply in_app_or in Hin. destruct Hin as [Hin|Hin].
  - destruct (ast.isHeading (ast.mkNode pl a cs)) eqn:Hh; [destruct Hin|].
    apply visitsFrom_In in Hin. destruct Hin as (k & c & Hk & Hc).
    rewrite Forall_forall in IH.
    destruct (IH c (nth_error_In _ _ Hk) _ _ _ Hc) as (s & -> & Hu & Hn).
    exists (k :: s). rewrite <- app_assoc. simpl.
    unfold ast.isHeading in Hh. simpl in Hh.
    unfold ast.isHeading. simpl. rewrite Hh, Hk. repeat split; assumption.
  - destruct Hin as [Hin|[]]. injection Hin as <- _. exact Hroot.
Qed.

Lemma visits_all_outside_headings : forall n p s m e,
  ast.nodeAt n s = Some m -> underHeading n s = false -> In (p ++ s, e) (visits p n).
Proof.
  induction n as [pl a cs IH] using Node_forall_ind. intros p s m e Hn Hu.
  rewrite visits_eq. destruct s as [|k s].
  - rewrite app_nil_r. destruct e; [left; reflexivity|].
    right. apply in_or_app. right. left. reflexivity.
  - simpl in Hn, Hu. apply orb_false_iff in Hu. destruct Hu as [Hh Hu].
    rewrite Hh. destruct (nth_error cs k) as [c|] eqn:Hk; [|discriminate].
    right. apply in_or_app. left.
    destruct (visitsFrom_split p cs 0 k c Hk) as (l1 & l2 & ->).
    apply in_or_app. right. apply in_or_app. left.
    rewrite Forall_forall in IH.
    replace (p ++ k :: s) with ((p ++ [k]) ++ s) by (rewrite <- app_assoc; reflexivity).
    eapply IH; eauto using nth_error_In.
Qed.

Lemma visits_heading_adjacent : forall n p s h,
  ast.nodeAt n s = Some h -> ast.isHeading h = true -> underHeading n s = false ->
  exists l1 l2, visits p n = l1 ++ (p ++ s, true) :: (p ++ s, false) :: l2.
Proof.
  induction n as [pl a cs IH] using Node_forall_ind. intros p s h Hn Hh Hu.
  destruct s as [|k s].
  - simpl in Hn. injection Hn as <-. rewrite visits_eq, Hh, app_nil_r.
    exists [], []. reflexivity.
  - simpl in Hn, Hu. apply orb_false_iff in Hu. destruct Hu as [Hnh Hu].
    destruct (nth_error cs k) as [c|] eqn:Hk; [|discriminate].
    rewrite visits_eq, Hnh.
    destruct (visitsFrom_split p cs 0 k c Hk) as (l1 & l2 & ->).
    rewrite Forall_forall in IH.
    destruct (IH c (nth_error_In _ _ Hk) (p ++ [(0 + k)%nat]) s h Hn Hh Hu) as (m1 & m2 & ->).
    exists ((p, true) :: l1 ++ m1), (m2 ++ l2 ++ [(p, false)]).
    replace ((p ++ [(0 + k)%nat]) ++ s) with (p ++ k :: s)
      by (rewrite <- app_assoc; reflexivity).
    simpl. rewrite <- !app_assoc. simpl. rewrite <- ?app_assoc. reflexivity.
Qed.

Lemma underHeading_below : forall n q h s,
  ast.nodeAt n q = Some h -> ast.isHeading h = true -> s <> [] ->
  underHeading n (q ++ s) = true.
Proof.
  intros n q. revert n. induction q as [|i q IH]; intros n h s Hn Hh Hs.
  - simpl in Hn. injection Hn as ->. destruct s as [|j s]; [contradiction|].
    simpl. rewrite Hh. reflexivity.
  - simpl in Hn. simpl. destruct (nth_error (ast.children n) i) as [c|]; [|discriminate].
    rewrite (IH c h s Hn Hh Hs). apply orb_true_r.
Qed.

(** *** The render callback *)

Lemma asNode_ofNode : forall n, asNode (ofNode n) = Some n.
Proof. intros [[a c] id l v]. reflexivity. Qed.

Lemma RenderNode_other_half : forall (M : Markup) r w node entering,
  ownHalf r entering = false ->
  Renderer.RenderNode r w node entering = returns (w, ast.WalkContinue, None).
Proof.
  intros M r w node entering H. unfold ownHalf in H.
  unfold Renderer.RenderNode. rewrite H. reflexivity.
Qed.

Lemma RenderNode_empty_id : forall (M : Markup) r w n entering,
  ID n = [] ->
  Renderer.RenderNode r w (ofNode n) entering = returns (w, ast.WalkContinue, None).
Proof.
  intros M r w n entering H. unfold Renderer.RenderNode.
  destruct (negb _); [reflexivity|].
  rewrite asNode_ofNode, H. reflexivity.
Qed.

Lemma RenderNode_emits : forall (M : Markup) r w n entering,
  ownHalf r entering = true ->
  ID n <> [] ->
  Renderer.RenderNode r w (ofNode n) entering
  = returns (w ++ (if (Renderer.Position r =? Before)%Z
                   then anchorElement r n ++ [" "%byte]
                   else " "%byte :: anchorElement r n),
             ast.WalkContinue, None).
Proof.
  intros M r w n entering Hm Hid. unfold ownHalf in Hm. unfold Renderer.RenderNode.
  rewrite Hm, asNode_ofNode. cbn [negb].
  destruct (len (ID n) =? 0)%Z eqn:Hl; [apply len_zero in Hl; contradiction|].
  unfold anchorElement, html.RenderAttributes, util.WriteString, util.Write, util.WriteByte.
  destruct n as [[a c] id l v]. cbn [fst snd ofNode ast.attributes BaseInline ID Value
    ast.battributes ast.bchildren].
  destruct (Renderer.Position r =? Before)%Z; destruct (Renderer.Unsafe r);
    cbn [fst Renderer.runDeferred]; rewrite <- ?app_assoc; reflexivity.
Qed.

Lemma anchorElement_nonempty : forall (M : Markup) r n, anchorElement r n <> [].
Proof. intros M r n. unfold anchorElement. simpl. discriminate. Qed.


(** *** Rendering the children of a heading *)

Lemma RenderNode_appends : forall (M : Markup) r a e,
  exists out, forall w,
    Renderer.RenderNode r w (ofNode a) e = returns (w ++ out, ast.WalkContinue, None).
Proof.
  intros M r a e. destruct (ownHalf r e) eqn:Hm.
  - destruct (ID a) as [|c id] eqn:Hid.
    + exists []. intros w. rewrite app_nil_r. apply RenderNode_empty_id. exact Hid.
    + eexists. intros w. apply RenderNode_emits; [exact Hm|]. rewrite Hid. discriminate.
  - exists []. intros w. rewrite app_nil_r. apply RenderNode_other_half. exact Hm.
Qed.

Lemma renderChildren_appends_from : forall (M : Markup) host r l,
  Forall (fun c => exists out, forall w, renderTree host r c w = returns (w ++ out, None)) l ->
  exists out, forall w, renderChildren host r l w = returns (w ++ out, None).
Proof.
  intros M host r l H. induction H as [|c l [o Hc] _ [os IH]].
  - exists []. intros w. rewrite app_nil_r. reflexivity.
  - exists (o ++ os). intros w. cbn [renderChildren]. rewrite Hc, IH, app_assoc. reflexivity.
Qed.

Lemma renderTree_children_loop : forall (M : Markup) host r l w,
  (fix each (l : list ast.Node) (w : util.BufWriter)
     : outcome (util.BufWriter * option error) :=
     match l with
     | [] => returns (w, None)
     | c :: l' =>
         match renderTree host r c w with
         | panics => panics
         | returns (w', Some e) => returns (w', Some e)
         | returns (w', None) => each l' w'
         end
     end) l w
  = renderChildren host r l w.
Proof.
  intros M host r l. induction l as [|c l IH]; intros w; [reflexivity|].
  cbn [renderChildren]. destruct (renderTree host r c w) as [[w' [e|]]|]; try reflexivity.
  apply IH.
Qed.

Lemma renderTree_appends : forall (M : Markup) host r n,
  exists out, forall w, renderTree host r n w = returns (w ++ out, None).
Proof.
  intros M host r n. induction n as [pl a cs IH] using Node_forall_ind.
  destruct (renderChildren_appends_from M host r cs IH) as [o2 H2].
  destruct pl as [|l|id l v|k];
    try (eexists; intros w; reflexivity).
  set (a0 := {| BaseInline := {| ast.battributes := a; ast.bchildren := cs |};
                ID := id; Level := l; Value := v |}).
  destruct (RenderNode_appends M r a0 true) as [o1 H1].
  destruct (RenderNode_appends M r a0 false) as [o3 H3].
  exists (o1 ++ o2 ++ o3). intros w. cbn [renderTree ast.isAnchor ast.payload].
  change (ast.mkNode (ast.PAnchor id l v) a cs) with (ofNode a0).
  rewrite H1, renderTree_children_loop, H2, H3, <- !app_assoc. reflexivity.
Qed.

Lemma renderChildren_appends : forall (M : Markup) host r l,
  exists out, forall w, renderChildren host r l w = returns (w ++ out, None).
Proof.
  intros M host r l. apply renderChildren_appends_from.
  apply Forall_forall. intros c _. apply renderTree_appends.
Qed.

Lemma renderChildren_app : forall (M : Markup) host r l1 l2 w w1,
  renderChildren host r l1 w = returns (w1, None) ->
  renderChildren host r (l1 ++ l2) w = renderChildren host r l2 w1.
Proof.
  intros M host r l1. induction l1 as [|c l1 IH]; intros l2 w w1 H.
  - simpl in H. injection H as <-. reflexivity.
  - cbn [renderChildren app] in *.
    destruct (renderTree host r c w) as [[w' [e|]]|]; try discriminate.
    apply IH. exact H.
Qed.

(** An anchor node without children, rendered: its enter call and its exit
    call, one after the other. *)
Lemma renderTree_leaf_anchor : forall (M : Markup) host r a w,
  ast.bchildren (BaseInline a) = [] ->
  renderTree host r (ofNode a) w = returns (w ++ anchorMarkup r a, None).
Proof.
  intros M host r a w Hc. unfold anchorMarkup.
  assert (Hunfold : renderTree host r (ofNode a) w
            = match Renderer.RenderNode r w (ofNode a) true with
              | panics => panics
              | returns (w1, _, Some e) => returns (w1, Some e)
              | returns (w1, ast.WalkSkipChildren, None) =>
                  match Renderer.RenderNode r w1 (ofNode a) false with
                  | panics => panics
                  | returns (w3, _, err) => returns (w3, err)
                  end
              | returns (w1, ast.WalkContinue, None) =>
                  match Renderer.RenderNode r w1 (ofNode a) false with
                  | panics => panics
                  | returns (w3, _, err) => returns (w3, err)
                  end
              end).
  { destruct a as [[at_ cs] id l v]. simpl in Hc. subst cs. unfold ofNode.
    cbn [renderTree ast.isAnchor ast.payload BaseInline ID Level Value
         ast.battributes ast.bchildren].
    destruct (Renderer.RenderNode r w _ true) as [[[w1 st] [e|]]|];
      try reflexivity; destruct st; reflexivity. }
  rewrite Hunfold.
  destruct (ID a) as [|c id] eqn:Hid.
  - rewrite (RenderNode_empty_id M r w a true Hid).
    rewrite (RenderNode_empty_id M r w a false Hid), app_nil_r. reflexivity.
  - assert (Hne : ID a <> []) by (rewrite Hid; discriminate).
    destruct (Renderer.Position r =? Before)%Z eqn:Hp.
    + assert (Hin : ownHalf r true = true) by (unfold ownHalf; rewrite Hp; reflexivity).
      assert (Hout : ownHalf r false = false) by (unfold ownHalf; rewrite Hp; reflexivity).
      rewrite (RenderNode_emits M r w a true Hin Hne), Hp.
      rewrite (RenderNode_other_half M r _ (ofNode a) false Hout). reflexivity.
    + assert (Hin : ownHalf r true = false) by (unfold ownHalf; rewrite Hp; reflexivity).
      assert (Hout : ownHalf r false = true) by (unfold ownHalf; rewrite Hp; reflexivity).
      rewrite (RenderNode_other_half M r w (ofNode a) true Hin).
      rewrite (RenderNode_emits M r w a false Hout Hne), Hp. reflexivity.
Qed.

Lemma newAnchor_children : forall t l id text,
  ast.bchildren (BaseInline (newAnchor t l id text)) = [].
Proof.
  intros t l id text. unfold newAnchor.
  set (n0 := {| BaseInline := ast.emptyBase; ID := id; Level := l; Value := text |}).
  assert (H : forall kvs n,
            ast.bchildren (BaseInline (fold_left
              (fun n (kv : string * string) =>
                 Node_SetAttributeString n (fst kv) (ast.Bytes (bytes_of_string (snd kv))))
              kvs n)) = ast.bchildren (BaseInline n)).
  { induction kvs as [|kv kvs IH]; intros n; cbn [fold_left]; [reflexivity|].
    rewrite IH. reflexivity. }
  rewrite H. reflexivity.
Qed.

Lemma newAnchor_fields : forall t l id text,
  ID (newAnchor t l id text) = id /\ Value (newAnchor t l id text) = text.
Proof.
  intros t l id text.
  pose proof (newAnchor_payload t l id text) as Hpl.
  assert (Hf : ast.payload (ofNode (newAnchor t l id text))
               = ast.PAnchor (ID (newAnchor t l id text)) (Level (newAnchor t l id text))
                   (Value (newAnchor t l id text))) by reflexivity.
  rewrite Hpl in Hf. injection Hf as H1 _ H2. split; symmetry; assumption.
Qed.

(** ** The scenarios of the specification, run *)

Example scenario_A_transform :
  Transformer.Transform 3 defaultTransformer introDoc
  = Some (ast.mkNode ast.Document []
            [ast.mkNode (ast.POther "Paragraph") [] [textNode];
             ast.mkNode (ast.PHeading 2)
               [{| ast.Name := "id"; ast.Value := ast.Bytes (bytes_of_string "intro") |}]
               [textNode; ofNode introAnchor]]).
Proof. reflexivity. Qed.

Example scenario_A_render :
  @Renderer.RenderNode sampleMarkup afterRenderer [] (ofNode introAnchor) false
  = returns
      (bytes_of_string
         (" <a class=" ++ dquote ++ "anchor" ++ dquote
          ++ " href=" ++ dquote ++ "#intro" ++ dquote ++ ">" ++ pilcrow ++ "</a>"),
       ast.WalkContinue, None).
Proof. reflexivity. Qed.

Example scenario_B_empty_text :
  Transformer.Transform 3
    {| Transformer.Texter := Some (Text ""); Transformer.Position := Before;
       Transformer.Attributer := None |} introDoc
  = Some introDoc.
Proof. reflexivity. Qed.

Example scenario_C_no_id :
  Transformer.Transform 3 beforeTransformer
    (ast.mkNode ast.Document [] [ast.mkNode (ast.PHeading 1) [] [textNode]])
  = Some (ast.mkNode ast.Document [] [ast.mkNode (ast.PHeading 1) [] [textNode]]).
Proof. reflexivity. Qed.

Example render_unsafe_text_escaped_id :
  @Renderer.RenderNode sampleMarkup beforeRenderer [] (ofNode markupAnchor) true
  = returns
      (bytes_of_string
         ("<a href=" ++ dquote ++ "#a&quot;&lt;b" ++ dquote ++ "><i>go</i></a> "),
       ast.WalkContinue, None).
Proof. reflexivity. Qed.

(** The position test comes before the type assertion: on a node that is
    not an anchor the unused half returns and the used half panics.  The
    render dispatch calls [RenderNode] for anchor nodes only. *)
Example render_other_node :
  @Renderer.RenderNode sampleMarkup afterRenderer [] textNode true
  = returns ([], ast.WalkContinue, None)
  /\ @Renderer.RenderNode sampleMarkup afterRenderer [] textNode false = panics.
Proof. split; reflexivity. Qed.

(** A heading inside a heading is not reached by the walk. *)
Example nested_heading_not_visited :
  Transformer.Transform 3 defaultTransformer
    (ast.mkNode ast.Document []
       [ast.mkNode (ast.PHeading 1) [] [ast.ofHeading introHeading]])
  = Some (ast.mkNode ast.Document []
            [ast.mkNode (ast.PHeading 1) [] [ast.ofHeading introHeading]]).
Proof. reflexivity. Qed.

(** The heading of scenario A, rendered between its tags: the heading's
    text, one space, the anchor element. *)
Example scenario_A_heading_content :
  @renderChildren sampleMarkup sampleHostBytes afterRenderer
    [textNode; ofNode introAnchor] []
  = returns
      (bytes_of_string
         ("Intro <a class=" ++ dquote ++ "anchor" ++ dquote
          ++ " href=" ++ dquote ++ "#intro" ++ dquote ++ ">" ++ pilcrow ++ "</a>"),
       None).
Proof. reflexivity. Qed.

(** A renderer whose position is not the transformer's: the anchor sits in
    front of the text and its space on the far side of it. *)
Example positions_must_agree :
  @renderChildren sampleMarkup sampleHostBytes afterRenderer
    [ofNode introAnchor; textNode] []
  = returns
      (bytes_of_string
         (" <a class=" ++ dquote ++ "anchor" ++ dquote
          ++ " href=" ++ dquote ++ "#intro" ++ dquote ++ ">" ++ pilcrow ++ "</a>Intro"),
       None).
Proof. reflexivity. Qed.

(** Two passes that meet the two attributes in different orders leave two
    anchor nodes that differ in the order of their attributes. *)
Example two_passes_two_attribute_orders :
  exists doc1,
    Transformer.Transform 3 classThenRel introDoc = Some doc1 /\
    Transformer.Transform 3 relThenClass doc1
    = Some (ast.mkNode ast.Document []
              [ast.mkNode (ast.POther "Paragraph") [] [textNode];
               ast.mkNode (ast.PHeading 2)
                 [{| ast.Name := "id"; ast.Value := ast.Bytes (bytes_of_string "intro") |}]
                 [textNode;
                  ast.mkNode (ast.PAnchor (bytes_of_string "intro") 2 (bytes_of_string "#"))
                    [{| ast.Name := "class"; ast.Value := ast.Bytes (bytes_of_string "anchor") |};
                     {| ast.Name := "rel"; ast.Value := ast.Bytes (bytes_of_string "self") |}]
                    [];
                  ast.mkNode (ast.PAnchor (bytes_of_string "intro") 2 (bytes_of_string "#"))
                    [{| ast.Name := "rel"; ast.Value := ast.Bytes (bytes_of_string "self") |};
                     {| ast.Name := "class"; ast.Value := ast.Bytes (bytes_of_string "anchor") |}]
                    []]]).
Proof. eexists. split; reflexivity. Qed.

(** ** The claims *)

Lemma AnchorInserted_length : forall cs cs',
  AnchorInserted cs cs' -> length cs' = S (length cs).
Proof.
  intros cs cs' (l1 & a & l2 & _ & -> & ->). rewrite !length_app. simpl. lia.
Qed.

Lemma AnchorInserted_ends : forall (b : bool) cs a,
  ast.isAnchor a = true -> AnchorInserted cs (if b then a :: cs else cs ++ [a]).
Proof.
  intros b cs a Ha. destruct b.
  - exists [], a, cs. repeat split. exact Ha.
  - exists cs, a, []. rewrite app_nil_r. repeat split. exact Ha.
Qed.

(** The heading at [p] after one pass. *)
Lemma pass_at_heading : forall fuel t doc p h,
  (ast.height doc < fuel)%nat ->
  ast.nodeAt doc p = Some (ast.ofHeading h) ->
  underHeading doc p = false ->
  Transformer.Transform fuel t doc = Some (decorate (Transformer.newTransform t) doc) /\
  ast.nodeAt (decorate (Transformer.newTransform t) doc) p
  = Some (ast.ofHeading (transform.transform (Transformer.newTransform t) h)).
Proof.
  intros fuel t doc p h Hf Hn Hu. split; [apply Transform_enough_fuel; exact Hf|].
  rewrite nodeAt_decorate by exact Hu. rewrite Hn. cbn [option_map].
  rewrite decorate_ofHeading. reflexivity.
Qed.

(** C1 does not hold as stated: a heading whose identifier attribute is the
    empty byte sequence is given an anchor node all the same. *)
Lemma C1_empty_id_gets_anchor :
  ~ anchor_iff_nonempty_id_and_text 3 defaultTransformer emptyIdDoc [0%nat] emptyIdHeading.
Proof.
  intros (doc' & h' & HT & Hn & Hiff).
  vm_compute in HT. injection HT as <-.
  simpl in Hn. injection Hn as _ _ Ec.
  assert (Hins : AnchorInserted (ast.bchildren (ast.BaseBlock emptyIdHeading))
                   (ast.bchildren (ast.BaseBlock h'))).
  { rewrite <- Ec.
    exists [textNode], (ast.mkNode (ast.PAnchor [] 1 (bytes_of_string pilcrow))
                          [{| ast.Name := "class";
                              ast.Value := ast.Bytes (bytes_of_string "anchor") |}] []), [].
    repeat split. }
  apply Hiff in Hins. destruct Hins as (id & Hid & Hne & _).
  vm_compute in Hid. injection Hid as <-. apply Hne. reflexivity.
Qed.

(** C1, amended: for every heading of the document that is not inside
    another heading, one pass puts an anchor node among its children if and
    only if its [id] attribute is a byte sequence, empty or not, and the
    text policy returns non-empty text for it; a heading that gets an anchor
    gets exactly one, and any other heading is left as it was. *)
Theorem C1_anchor_iff_id_bytes_and_text :
  forall fuel t doc p h,
    (ast.height doc < fuel)%nat ->
    ast.nodeAt doc p = Some (ast.ofHeading h) ->
    underHeading doc p = false ->
    exists doc' h',
      Transformer.Transform fuel t doc = Some doc' /\
      ast.nodeAt doc' p = Some (ast.ofHeading h') /\
      (AnchorInserted (ast.bchildren (ast.BaseBlock h)) (ast.bchildren (ast.BaseBlock h')) <->
       exists id,
         ast.AttributeString (ast.BaseBlock h) "id" = Some (ast.Bytes id) /\
         policyText (Transformer.newTransform t) h id <> []) /\
      (AnchorInserted (ast.bchildren (ast.BaseBlock h)) (ast.bchildren (ast.BaseBlock h'))
       \/ h' = h).
Proof.
  intros fuel t doc p h Hf Hn Hu.
  destruct (pass_at_heading fuel t doc p h Hf Hn Hu) as [HT Hat].
  set (tr := Transformer.newTransform t) in *.
  exists (decorate tr doc), (transform.transform tr h).
  split; [exact HT|]. split; [exact Hat|].
  assert (Hskip : transform.transform tr h = h ->
            ~ (exists id, ast.AttributeString (ast.BaseBlock h) "id" = Some (ast.Bytes id) /\
                          policyText tr h id <> []) ->
            (AnchorInserted (ast.bchildren (ast.BaseBlock h))
               (ast.bchildren (ast.BaseBlock (transform.transform tr h))) <->
             exists id, ast.AttributeString (ast.BaseBlock h) "id" = Some (ast.Bytes id) /\
                        policyText tr h id <> []) /\
            (AnchorInserted (ast.bchildren (ast.BaseBlock h))
               (ast.bchildren (ast.BaseBlock (transform.transform tr h)))
             \/ transform.transform tr h = h)).
  { intros E Hno. rewrite E. split; [|right; reflexivity].
    split; [|intros H; contradiction].
    intros H. apply AnchorInserted_length in H. lia. }
  destruct (ast.AttributeString (ast.BaseBlock h) "id") as [v|] eqn:Hid.
  - destruct v as [id| |].
    + destruct (policyText tr h id) as [|c text] eqn:Htext.
      * apply Hskip.
        -- apply transform_no_text with (id := id); assumption.
        -- intros (id' & E & Hne). injection E as <-. apply Hne. exact Htext.
      * assert (Hne : policyText tr h id <> []) by (rewrite Htext; discriminate).
        pose proof (transform_inserts tr h id Hid Hne) as E. simpl in E.
        assert (Hins : AnchorInserted (ast.bchildren (ast.BaseBlock h))
                         (ast.bchildren (ast.BaseBlock (transform.transform tr h)))).
        { rewrite E. simpl. apply AnchorInserted_ends. apply newAnchor_isAnchor. }
        split; [|left; exact Hins].
        split; [intros _; exists id; rewrite Htext; split; [reflexivity|discriminate]
               |intros _; exact Hins].
    + apply Hskip.
      * apply transform_id_not_bytes with (v := ast.Str s); [assumption|discriminate].
      * intros (id' & E & _). discriminate.
    + apply Hskip.
      * apply transform_id_not_bytes with (v := ast.OtherValue); [assumption|discriminate].
      * intros (id' & E & _). discriminate.
  - apply Hskip.
    + apply transform_no_id. exact Hid.
    + intros (id' & E & _). discriminate.
Qed.

Lemma C1_anchor_iff_id_bytes_and_text_witness :
  (ast.height introDoc < 3)%nat /\
  ast.nodeAt introDoc [1%nat] = Some (ast.ofHeading introHeading) /\
  underHeading introDoc [1%nat] = false /\
  exists doc' h',
    Transformer.Transform 3 defaultTransformer introDoc = Some doc' /\
    ast.nodeAt doc' [1%nat] = Some (ast.ofHeading h') /\
    (AnchorInserted (ast.bchildren (ast.BaseBlock introHeading))
       (ast.bchildren (ast.BaseBlock h')) <->
     exists id,
       ast.AttributeString (ast.BaseBlock introHeading) "id" = Some (ast.Bytes id) /\
       policyText (Transformer.newTransform defaultTransformer) introHeading id <> []) /\
    (AnchorInserted (ast.bchildren (ast.BaseBlock introHeading))
       (ast.bchildren (ast.BaseBlock h'))
     \/ h' = introHeading).
Proof.
  assert (H1 : (ast.height introDoc < 3)%nat) by (simpl; lia).
  repeat (split; [first [exact H1 | reflexivity]|]).
  exact (C1_anchor_iff_id_bytes_and_text 3 defaultTransformer introDoc [1%nat] introHeading
           H1 eq_refl eq_refl).
Defined.

(** C2: a heading that gets an anchor has it as its only child when it had
    no children, as its first child under [Before] and as its last child
    under any other position, [After] in particular; the children it
    already had follow or precede it in their old order. *)
Theorem C2_anchor_first_or_last :
  forall fuel t doc p h id,
    (ast.height doc < fuel)%nat ->
    ast.nodeAt doc p = Some (ast.ofHeading h) ->
    underHeading doc p = false ->
    ast.AttributeString (ast.BaseBlock h) "id" = Some (ast.Bytes id) ->
    policyText (Transformer.newTransform t) h id <> [] ->
    exists doc' h' a,
      Transformer.Transform fuel t doc = Some doc' /\
      ast.nodeAt doc' p = Some (ast.ofHeading h') /\
      ast.payload a
      = ast.PAnchor id (ast.Level h) (policyText (Transformer.newTransform t) h id) /\
      (ast.bchildren (ast.BaseBlock h) = [] -> ast.bchildren (ast.BaseBlock h') = [a]) /\
      (Transformer.Position t = Before ->
       ast.bchildren (ast.BaseBlock h') = a :: ast.bchildren (ast.BaseBlock h)) /\
      (Transformer.Position t <> Before ->
       ast.bchildren (ast.BaseBlock h') = ast.bchildren (ast.BaseBlock h) ++ [a]).
Proof.
  intros fuel t doc p h id Hf Hn Hu Hid Htext.
  destruct (pass_at_heading fuel t doc p h Hf Hn Hu) as [HT Hat].
  set (tr := Transformer.newTransform t) in *.
  pose proof (transform_inserts tr h id Hid Htext) as E. cbv zeta in E.
  fold (policyText tr h id) in E.
  exists (decorate tr doc), (transform.transform tr h),
    (ofNode (newAnchor tr (ast.Level h) id (policyText tr h id))).
  split; [exact HT|]. split; [exact Hat|]. split; [apply newAnchor_payload|].
  rewrite E. cbn [ast.BaseBlock ast.bchildren].
  change (transform.Position tr) with (Transformer.Position t).
  repeat split.
  - intros ->. destruct (Transformer.Position t =? Before)%Z; reflexivity.
  - intros ->. reflexivity.
  - intros Hp. apply Z.eqb_neq in Hp. rewrite Hp. reflexivity.
Qed.

Lemma C2_anchor_first_or_last_witness :
  (ast.height introDoc < 3)%nat /\
  ast.nodeAt introDoc [1%nat] = Some (ast.ofHeading introHeading) /\
  underHeading introDoc [1%nat] = false /\
  ast.AttributeString (ast.BaseBlock introHeading) "id"
  = Some (ast.Bytes (bytes_of_string "intro")) /\
  policyText (Transformer.newTransform beforeTransformer) introHeading
    (bytes_of_string "intro") <> [] /\
  exists doc' h' a,
    Transformer.Transform 3 beforeTransformer introDoc = Some doc' /\
    ast.nodeAt doc' [1%nat] = Some (ast.ofHeading h') /\
    ast.payload a
    = ast.PAnchor (bytes_of_string "intro") (ast.Level introHeading)
        (policyText (Transformer.newTransform beforeTransformer) introHeading
           (bytes_of_string "intro")) /\
    (ast.bchildren (ast.BaseBlock introHeading) = [] ->
     ast.bchildren (ast.BaseBlock h') = [a]) /\
    (Transformer.Position beforeTransformer = Before ->
     ast.bchildren (ast.BaseBlock h') = a :: ast.bchildren (ast.BaseBlock introHeading)) /\
    (Transformer.Position beforeTransformer <> Before ->
     ast.bchildren (ast.BaseBlock h') = ast.bchildren (ast.BaseBlock introHeading) ++ [a]).
Proof.
  assert (H1 : (ast.height introDoc < 3)%nat) by (simpl; lia).
  assert (H5 : policyText (Transformer.newTransform beforeTransformer) introHeading
                 (bytes_of_string "intro") <> []) by (vm_compute; discriminate).
  repeat (split; [first [exact H1 | exact H5 | reflexivity]|]).
  exact (C2_anchor_first_or_last 3 beforeTransformer introDoc [1%nat] introHeading
           (bytes_of_string "intro") H1 eq_refl eq_refl eq_refl H5).
Defined.

(** C6: the pass is not idempotent.  A second pass over the result of the
    first, by the same transformer with its attribute map ranged afresh,
    gives every heading whose identifier is a byte sequence and whose policy
    text is non-empty a second anchor node next to the first, so that the
    heading has two anchor children for the same identifier and text (their
    attributes in the order each pass met them) and the second result
    differs from the first. *)
Theorem C6_second_pass_second_anchor :
  forall fuel t1 t2 doc p h id,
    (ast.height doc < fuel)%nat ->
    ast.nodeAt doc p = Some (ast.ofHeading h) ->
    underHeading doc p = false ->
    ast.AttributeString (ast.BaseBlock h) "id" = Some (ast.Bytes id) ->
    policyText (Transformer.newTransform t1) h id <> [] ->
    samePolicies t1 t2 ->
    exists doc1 doc2 h2 a1 a2,
      Transformer.Transform fuel t1 doc = Some doc1 /\
      Transformer.Transform fuel t2 doc1 = Some doc2 /\
      ast.nodeAt doc2 p = Some (ast.ofHeading h2) /\
      ast.payload a1
      = ast.PAnchor id (ast.Level h) (policyText (Transformer.newTransform t1) h id) /\
      ast.payload a2
      = ast.PAnchor id (ast.Level h) (policyText (Transformer.newTransform t1) h id) /\
      ast.bchildren (ast.BaseBlock h2)
      = (if (Transformer.Position t1 =? Before)%Z
         then a2 :: a1 :: ast.bchildren (ast.BaseBlock h)
         else ast.bchildren (ast.BaseBlock h) ++ [a1; a2]) /\
      doc2 <> doc1.
Proof.
  intros fuel t1 t2 doc p h id Hf Hn Hu Hid Htext (HsameT & HsameP & _).
  destruct (pass_at_heading fuel t1 doc p h Hf Hn Hu) as [HT Hat].
  set (tr1 := Transformer.newTransform t1) in *.
  set (tr2 := Transformer.newTransform t2).
  assert (HTx : transform.Texter tr2 = transform.Texter tr1).
  { unfold tr1, tr2, Transformer.newTransform. cbn [transform.Texter].
    rewrite HsameT. reflexivity. }
  assert (HPos : transform.Position tr2 = Transformer.Position t1) by exact HsameP.
  pose proof (transform_inserts tr1 h id Hid Htext) as E. cbv zeta in E.
  fold (policyText tr1 h id) in E.
  set (a1 := ofNode (newAnchor tr1 (ast.Level h) id (policyText tr1 h id))) in *.
  set (h1 := transform.transform tr1 h) in *.
  assert (Hid1 : ast.AttributeString (ast.BaseBlock h1) "id" = Some (ast.Bytes id)).
  { rewrite E. exact Hid. }
  assert (Hl1 : ast.Level h1 = ast.Level h) by (rewrite E; reflexivity).
  assert (Hpt : policyText tr2 h1 id = policyText tr1 h id).
  { unfold policyText. rewrite HTx, Hl1. reflexivity. }
  assert (Htext1 : policyText tr2 h1 id <> []) by (rewrite Hpt; exact Htext).
  pose proof (transform_inserts tr2 h1 id Hid1 Htext1) as E2. cbv zeta in E2.
  fold (policyText tr2 h1 id) in E2. rewrite Hpt, Hl1, HPos in E2.
  set (a2 := ofNode (newAnchor tr2 (ast.Level h) id (policyText tr1 h id))) in *.
  assert (Hat2 : ast.nodeAt (decorate tr2 (decorate tr1 doc)) p
                 = Some (ast.ofHeading (transform.transform tr2 h1))).
  { rewrite nodeAt_decorate by (rewrite underHeading_decorate; exact Hu).
    rewrite Hat. cbn [option_map]. rewrite decorate_ofHeading. reflexivity. }
  assert (Hc2 : ast.bchildren (ast.BaseBlock (transform.transform tr2 h1))
                = (if (Transformer.Position t1 =? Before)%Z
                   then a2 :: a1 :: ast.bchildren (ast.BaseBlock h)
                   else ast.bchildren (ast.BaseBlock h) ++ [a1; a2])).
  { rewrite E2. cbn [ast.BaseBlock ast.bchildren]. rewrite E.
    cbn [ast.BaseBlock ast.bchildren].
    change (transform.Position tr1) with (Transformer.Position t1).
    destruct (Transformer.Position t1 =? Before)%Z; [reflexivity|].
    rewrite <- app_assoc. reflexivity. }
  exists (decorate tr1 doc), (decorate tr2 (decorate tr1 doc)),
    (transform.transform tr2 h1), a1, a2.
  split; [exact HT|].
  split.
  { apply Transform_walkDepth. rewrite walkDepth_decorate.
    pose proof (walkDepth_le_height doc). lia. }
  split; [exact Hat2|].
  split; [apply newAnchor_payload|].
  split; [apply newAnchor_payload|].
  split; [exact Hc2|].
  intros Heq. rewrite Heq, Hat in Hat2. injection Hat2 as _ _ Hc.
  assert (Hlen : length (ast.bchildren (ast.BaseBlock h1))
                 = length (ast.bchildren (ast.BaseBlock (transform.transform tr2 h1))))
    by (rewrite Hc; reflexivity).
  rewrite Hc2, E in Hlen. cbn [ast.BaseBlock ast.bchildren] in Hlen.
  change (transform.Position tr1) with (Transformer.Position t1) in Hlen.
  destruct (Transformer.Position t1 =? Before)%Z; simpl in Hlen;
    rewrite ?length_app in Hlen; simpl in Hlen; lia.
Qed.

Lemma C6_second_pass_second_anchor_witness :
  (ast.height introDoc < 3)%nat /\
  ast.nodeAt introDoc [1%nat] = Some (ast.ofHeading introHeading) /\
  underHeading introDoc [1%nat] = false /\
  ast.AttributeString (ast.BaseBlock introHeading) "id"
  = Some (ast.Bytes (bytes_of_string "intro")) /\
  policyText (Transformer.newTransform classThenRel) introHeading
    (bytes_of_string "intro") <> [] /\
  samePolicies classThenRel relThenClass /\
  exists doc1 doc2 h2 a1 a2,
    Transformer.Transform 3 classThenRel introDoc = Some doc1 /\
    Transformer.Transform 3 relThenClass doc1 = Some doc2 /\
    ast.nodeAt doc2 [1%nat] = Some (ast.ofHeading h2) /\
    ast.payload a1
    = ast.PAnchor (bytes_of_string "intro") (ast.Level introHeading)
        (policyText (Transformer.newTransform classThenRel) introHeading
           (bytes_of_string "intro")) /\
    ast.payload a2
    = ast.PAnchor (bytes_of_string "intro") (ast.Level introHeading)
        (policyText (Transformer.newTransform classThenRel) introHeading
           (bytes_of_string "intro")) /\
    ast.bchildren (ast.BaseBlock h2)
    = (if (Transformer.Position classThenRel =? Before)%Z
       then a2 :: a1 :: ast.bchildren (ast.BaseBlock introHeading)
       else ast.bchildren (ast.BaseBlock introHeading) ++ [a1; a2]) /\
    doc2 <> doc1.
Proof.
  assert (H1 : (ast.height introDoc < 3)%nat) by (simpl; lia).
  assert (H5 : policyText (Transformer.newTransform classThenRel) introHeading
                 (bytes_of_string "intro") <> []) by (vm_compute; discriminate).
  assert (H6 : samePolicies classThenRel relThenClass).
  { split; [reflexivity|]. split; [reflexivity|]. intros info. apply perm_swap. }
  repeat (split; [first [exact H1 | exact H5 | exact H6 | reflexivity]|]).
  exact (C6_second_pass_second_anchor 3 classThenRel relThenClass introDoc [1%nat]
           introHeading (bytes_of_string "intro") H1 eq_refl eq_refl eq_refl H5 H6).
Defined.

(** C7: once a heading has been entered the walk goes nowhere below it.
    No call is made for any node under a heading of the resulting tree, the
    anchor the pass has just put there included; the call that enters a
    heading is followed at once by the call that leaves it; and every node
    that is not under a heading is both entered and left. *)
Theorem C7_no_descent_below_heading :
  forall fuel t doc,
    (ast.height doc < fuel)%nat ->
    exists doc' calls,
      Transformer.walk fuel t doc = Some (doc', None, calls) /\
      (forall q h s e,
          ast.nodeAt doc' q = Some h -> ast.isHeading h = true -> s <> [] ->
          ~ In (q ++ s, e) calls) /\
      (forall q h,
          ast.nodeAt doc' q = Some h -> ast.isHeading h = true ->
          underHeading doc' q = false ->
          exists before after, calls = before ++ (q, true) :: (q, false) :: after) /\
      (forall q n e,
          ast.nodeAt doc' q = Some n -> underHeading doc' q = false -> In (q, e) calls).
Proof.
  intros fuel t doc Hf. set (tr := Transformer.newTransform t).
  exists (decorate tr doc), (visits [] doc).
  split; [apply walk_enough_fuel; exact Hf|].
  split; [|split].
  - intros q h s e Hq Hh Hs Hin.
    apply visits_outside_headings in Hin. destruct Hin as (s' & Es & Hu & _).
    simpl in Es. subst s'.
    rewrite <- (underHeading_decorate tr) in Hu.
    rewrite (underHeading_below (decorate tr doc) q h s Hq Hh Hs) in Hu. discriminate.
  - intros q h Hq Hh Hu. rewrite underHeading_decorate in Hu.
    destruct (nodeAt_decorate_inv tr doc q h Hu Hq) as (m & Hm & ->).
    rewrite isHeading_decorate in Hh.
    exact (visits_heading_adjacent doc [] q m Hm Hh Hu).
  - intros q n e Hq Hu. rewrite underHeading_decorate in Hu.
    destruct (nodeAt_decorate_inv tr doc q n Hu Hq) as (m & Hm & _).
    exact (visits_all_outside_headings doc [] q m e Hm Hu).
Qed.

Lemma C7_no_descent_below_heading_witness :
  (ast.height introDoc < 3)%nat /\
  exists doc' calls,
    Transformer.walk 3 defaultTransformer introDoc = Some (doc', None, calls) /\
    (forall q h s e,
        ast.nodeAt doc' q = Some h -> ast.isHeading h = true -> s <> [] ->
        ~ In (q ++ s, e) calls) /\
    (forall q h,
        ast.nodeAt doc' q = Some h -> ast.isHeading h = true ->
        underHeading doc' q = false ->
        exists before after, calls = before ++ (q, true) :: (q, false) :: after) /\
    (forall q n e,
        ast.nodeAt doc' q = Some n -> underHeading doc' q = false -> In (q, e) calls).
Proof.
  assert (H1 : (ast.height introDoc < 3)%nat) by (simpl; lia).
  split; [exact H1|].
  exact (C7_no_descent_below_heading 3 defaultTransformer introDoc H1).
Defined.

(** C8: neither pass raises a failure of its own.  [Visit] hands back a
    [nil] error for every node, flag and configuration; a heading without
    an [id] attribute, with one that is not a byte sequence, or with empty
    policy text is left as it is; the walk runs to its end and reports no
    error; and [RenderNode] returns [WalkContinue] and a [nil] error for
    every anchor node, flag and configuration. *)
Theorem C8_no_failure_originates :
  forall (M : Markup) fuel t doc tr n enter r w a entering,
    (ast.height doc < fuel)%nat ->
    snd (transform.Visit tr n enter) = None /\
    (forall h, ast.AttributeString (ast.BaseBlock h) "id" = None ->
               transform.transform tr h = h) /\
    (forall h v, ast.AttributeString (ast.BaseBlock h) "id" = Some v ->
                 (forall id, v <> ast.Bytes id) -> transform.transform tr h = h) /\
    (forall h id, ast.AttributeString (ast.BaseBlock h) "id" = Some (ast.Bytes id) ->
                  policyText tr h id = [] -> transform.transform tr h = h) /\
    (exists doc' calls, Transformer.walk fuel t doc = Some (doc', None, calls)) /\
    (exists w', Renderer.RenderNode r w (ofNode a) entering
                = returns (w', ast.WalkContinue, None)).
Proof.
  intros M fuel t doc tr n enter r w a entering Hf.
  split.
  { unfold transform.Visit. destruct enter; [|reflexivity].
    destruct (ast.asHeading n); reflexivity. }
  split; [intros h; apply transform_no_id|].
  split; [intros h v; apply transform_id_not_bytes|].
  split; [intros h id; apply transform_no_text|].
  split.
  { eexists. eexists. apply walk_enough_fuel. exact Hf. }
  destruct (ownHalf r entering) eqn:Hm.
  - destruct (ID a) as [|c id] eqn:Hid.
    + eexists. apply RenderNode_empty_id. exact Hid.
    + eexists. apply RenderNode_emits; [exact Hm|]. rewrite Hid. discriminate.
  - eexists. apply RenderNode_other_half. exact Hm.
Qed.

Lemma C8_no_failure_originates_witness :
  (ast.height emptyIdDoc < 3)%nat /\
  snd (transform.Visit (Transformer.newTransform defaultTransformer)
         (ast.ofHeading emptyIdHeading) true) = None /\
  (exists doc' calls,
      Transformer.walk 3 defaultTransformer emptyIdDoc = Some (doc', None, calls)) /\
  (exists w', @Renderer.RenderNode sampleMarkup afterRenderer [] (ofNode introAnchor) false
              = returns (w', ast.WalkContinue, None)).
Proof.
  assert (H1 : (ast.height emptyIdDoc < 3)%nat) by (simpl; lia).
  pose proof (C8_no_failure_originates sampleMarkup 3 defaultTransformer emptyIdDoc
                (Transformer.newTransform defaultTransformer)
                (ast.ofHeading emptyIdHeading) true afterRenderer [] introAnchor false H1)
    as (Hv & _ & _ & _ & Hw & Hr).
  split; [exact H1|]. split; [exact Hv|]. split; [exact Hw|exact Hr].
Defined.

(** C9: the pass only adds anchor nodes under headings, and rendering only
    adds to the sink.  Every node of the document that is not under a
    heading is found at the same place afterwards with the same kind-specific
    fields and the same attributes; if it is not a heading it has as many
    children as before, and if it is a heading its children are the old
    ones, untouched, with at most one anchor node in front of or behind
    them.  [RenderNode] hands back the sink it was given with bytes added at
    the end, and nothing else. *)
Theorem C9_only_anchors_added :
  forall (M : Markup) fuel t doc r w a entering,
    (ast.height doc < fuel)%nat ->
    (exists doc',
        Transformer.Transform fuel t doc = Some doc' /\
        forall p n,
          ast.nodeAt doc p = Some n -> underHeading doc p = false ->
          exists n',
            ast.nodeAt doc' p = Some n' /\
            ast.payload n' = ast.payload n /\
            ast.attributes n' = ast.attributes n /\
            (ast.isHeading n = false ->
             length (ast.children n') = length (ast.children n)) /\
            (ast.isHeading n = true ->
             ast.children n' = ast.children n \/
             exists x, ast.isAnchor x = true /\
               (ast.children n' = x :: ast.children n \/
                ast.children n' = ast.children n ++ [x]))) /\
    (exists out,
        Renderer.RenderNode r w (ofNode a) entering
        = returns (w ++ out, ast.WalkContinue, None)).
Proof.
  intros M fuel t doc r w a entering Hf. split.
  - set (tr := Transformer.newTransform t).
    exists (decorate tr doc). split; [apply Transform_enough_fuel; exact Hf|].
    intros p n Hn Hu. exists (decorate tr n).
    split; [rewrite nodeAt_decorate by exact Hu; rewrite Hn; reflexivity|].
    destruct (ast.asHeading n) as [h|] eqn:Hh.
    + apply asHeading_Some in Hh. subst n. rewrite decorate_ofHeading.
      destruct (transform_frame tr h) as (Ha & Hl & Hc).
      unfold ast.ofHeading. cbn [ast.payload ast.attributes ast.children].
      rewrite Ha, Hl. repeat split; [|intros _; exact Hc].
      intros Hnot. discriminate.
    + assert (Hnot : ast.isHeading n = false).
      { destruct n as [pl x cs]. destruct pl; try reflexivity. discriminate. }
      rewrite decorate_not_heading by exact Hnot.
      cbn [ast.payload ast.attributes ast.children].
      repeat split; [intros _; apply length_map|].
      intros Hyes. rewrite Hnot in Hyes. discriminate.
  - destruct (ownHalf r entering) eqn:Hm.
    + destruct (ID a) as [|c id] eqn:Hid.
      * exists []. rewrite app_nil_r. apply RenderNode_empty_id. exact Hid.
      * eexists. apply RenderNode_emits; [exact Hm|]. rewrite Hid. discriminate.
    + exists []. rewrite app_nil_r. apply RenderNode_other_half. exact Hm.
Qed.

Lemma C9_only_anchors_added_witness :
  (ast.height introDoc < 3)%nat /\
  (exists doc',
      Transformer.Transform 3 defaultTransformer introDoc = Some doc' /\
      forall p n,
        ast.nodeAt introDoc p = Some n -> underHeading introDoc p = false ->
        exists n',
          ast.nodeAt doc' p = Some n' /\
          ast.payload n' = ast.payload n /\
          ast.attributes n' = ast.attributes n /\
          (ast.isHeading n = false ->
           length (ast.children n') = length (ast.children n)) /\
          (ast.isHeading n = true ->
           ast.children n' = ast.children n \/
           exists x, ast.isAnchor x = true /\
             (ast.children n' = x :: ast.children n \/
              ast.children n' = ast.children n ++ [x]))) /\
  (exists out,
      @Renderer.RenderNode sampleMarkup afterRenderer [] (ofNode introAnchor) false
      = returns ([] ++ out, ast.WalkContinue, None)).
Proof.
  assert (H1 : (ast.height introDoc < 3)%nat) by (simpl; lia).
  split; [exact H1|].
  exact (C9_only_anchors_added sampleMarkup 3 defaultTransformer introDoc
           afterRenderer [] introAnchor false H1).
Defined.

(** C3: for every call on an anchor node [RenderNode] returns
    [WalkContinue] and no error, and it writes something exactly when the
    call is the half that the position uses (entering for [Before], leaving
    for [After] and any other position) and the node's identifier is not
    empty; in every other call the sink is left as it was. *)
Theorem C3_writes_only_on_own_half :
  forall (M : Markup) r w n entering,
    exists out,
      Renderer.RenderNode r w (ofNode n) entering
      = returns (w ++ out, ast.WalkContinue, None) /\
      (out <> [] <->
       ((Renderer.Position r = Before /\ entering = true) \/
        (Renderer.Position r <> Before /\ entering = false)) /\
       ID n <> []).
Proof.
  intros M r w n entering.
  assert (Hhalf : ownHalf r entering = true <->
            (Renderer.Position r = Before /\ entering = true) \/
            (Renderer.Position r <> Before /\ entering = false)).
  { unfold ownHalf. destruct (Renderer.Position r =? Before)%Z eqn:Hp.
    - apply Z.eqb_eq in Hp. destruct entering; simpl; split; intros H;
        try reflexivity; try discriminate.
      + left. split; [exact Hp|reflexivity].
      + destruct H as [[_ H]|[H _]]; [discriminate|contradiction].
    - apply Z.eqb_neq in Hp. destruct entering; simpl; split; intros H;
        try reflexivity; try discriminate.
      + destruct H as [[H _]|[_ H]]; [contradiction|discriminate].
      + right. split; [exact Hp|reflexivity]. }
  destruct (ownHalf r entering) eqn:Hm.
  - destruct (ID n) as [|c id] eqn:Hid.
    + exists []. rewrite app_nil_r. split; [apply RenderNode_empty_id; exact Hid|].
      split; [intros H; contradiction|intros [_ H]; contradiction].
    + eexists. split; [apply RenderNode_emits; [exact Hm|rewrite Hid; discriminate]|].
      split.
      * intros _. split; [apply Hhalf; reflexivity|discriminate].
      * intros _. pose proof (anchorElement_nonempty M r n) as Hne.
        destruct (Renderer.Position r =? Before)%Z; [|discriminate].
        destruct (anchorElement r n); [contradiction|discriminate].
  - exists []. rewrite app_nil_r. split; [apply RenderNode_other_half; exact Hm|].
    split; [intros H; contradiction|].
    intros [H _]. apply Hhalf in H. discriminate.
Qed.

(** C4: in the element written for an anchor node the identifier in the
    [href] fragment is [EscapeHTML] of the node's identifier whatever
    [Unsafe] says, and the text between the tags is the node's text as it is when
    [Unsafe] is set and [EscapeHTML] of it when [Unsafe] is not set. *)
Theorem C4_href_escaped_text_by_flag :
  forall (M : Markup) r w n entering,
    ownHalf r entering = true ->
    ID n <> [] ->
    exists lead trail,
      lead ++ trail = [" "%byte] /\
      Renderer.RenderNode r w (ofNode n) entering
      = returns
          (w ++ lead
             ++ bytes_of_string "<a"
             ++ attributeBytes (ast.battributes (BaseInline n))
             ++ bytes_of_string (" href=" ++ dquote ++ "#")
             ++ EscapeHTML (ID n)
             ++ bytes_of_string (dquote ++ ">")
             ++ (if Renderer.Unsafe r then Value n else EscapeHTML (Value n))
             ++ bytes_of_string "</a>"
             ++ trail,
           ast.WalkContinue, None).
Proof.
  intros M r w n entering Hm Hid.
  rewrite (RenderNode_emits M r w n entering Hm Hid). unfold anchorElement.
  destruct (Renderer.Position r =? Before)%Z.
  - exists [], [" "%byte]. split; [reflexivity|].
    rewrite <- !app_assoc. reflexivity.
  - exists [" "%byte], []. split; [reflexivity|].
    rewrite !app_nil_r. reflexivity.
Qed.

Lemma C4_href_escaped_text_by_flag_witness :
  ownHalf beforeRenderer true = true /\
  ID markupAnchor <> [] /\
  exists lead trail,
    lead ++ trail = [" "%byte] /\
    @Renderer.RenderNode sampleMarkup beforeRenderer [] (ofNode markupAnchor) true
    = returns
        ([] ++ lead
           ++ bytes_of_string "<a"
           ++ sampleAttributeBytes (ast.battributes (BaseInline markupAnchor))
           ++ bytes_of_string (" href=" ++ dquote ++ "#")
           ++ sampleEscapeHTML (ID markupAnchor)
           ++ bytes_of_string (dquote ++ ">")
           ++ (if Renderer.Unsafe beforeRenderer
               then Value markupAnchor else sampleEscapeHTML (Value markupAnchor))
           ++ bytes_of_string "</a>"
           ++ trail,
         ast.WalkContinue, None).
Proof.
  assert (H2 : ID markupAnchor <> []) by (vm_compute; discriminate).
  split; [reflexivity|]. split; [exact H2|].
  exact (C4_href_escaped_text_by_flag sampleMarkup beforeRenderer [] markupAnchor true
           eq_refl H2).
Defined.

(** C5: for an anchor that is rendered, one space is written with the
    anchor element and it lies between the element and the heading's own
    content.  Take a heading that gets an anchor with a non-empty
    identifier, and a renderer with the transformer's position.  The call of
    [RenderNode] that writes writes the element, which starts with the
    opening tag and ends with the closing tag, and one space: in front of the
    opening tag for [After] (and any position other than [Before]), behind
    the closing tag, from the deferred call, for [Before]; the other call
    writes nothing.  Rendering the heading's children after the pass then
    gives, for [Before], the element, the space and what the children the
    heading had before render to, and otherwise what those children render
    to, the space and the element. *)
Theorem C5_one_space_on_configured_side :
  forall (M : Markup) host fuel t r doc p h id w,
    (ast.height doc < fuel)%nat ->
    ast.nodeAt doc p = Some (ast.ofHeading h) ->
    underHeading doc p = false ->
    ast.AttributeString (ast.BaseBlock h) "id" = Some (ast.Bytes id) ->
    id <> [] ->
    policyText (Transformer.newTransform t) h id <> [] ->
    Renderer.Position r = Transformer.Position t ->
    exists doc' h' a own body,
      Transformer.Transform fuel t doc = Some doc' /\
      ast.nodeAt doc' p = Some (ast.ofHeading h') /\
      ID a = id /\
      anchorElement r a = bytes_of_string "<a" ++ body ++ bytes_of_string "</a>" /\
      (forall w0 entering,
          ownHalf r entering = true ->
          Renderer.RenderNode r w0 (ofNode a) entering
          = returns (w0 ++ (if (Renderer.Position r =? Before)%Z
                            then anchorElement r a ++ [" "%byte]
                            else [" "%byte] ++ anchorElement r a),
                     ast.WalkContinue, None)) /\
      (forall w0 entering,
          ownHalf r entering = false ->
          Renderer.RenderNode r w0 (ofNode a) entering
          = returns (w0, ast.WalkContinue, None)) /\
      (forall w0,
          renderChildren host r (ast.bchildren (ast.BaseBlock h)) w0
          = returns (w0 ++ own, None)) /\
      (Renderer.Position r = Before ->
       ast.bchildren (ast.BaseBlock h') = ofNode a :: ast.bchildren (ast.BaseBlock h) /\
       renderChildren host r (ast.bchildren (ast.BaseBlock h')) w
       = returns (w ++ anchorElement r a ++ [" "%byte] ++ own, None)) /\
      (Renderer.Position r <> Before ->
       ast.bchildren (ast.BaseBlock h') = ast.bchildren (ast.BaseBlock h) ++ [ofNode a] /\
       renderChildren host r (ast.bchildren (ast.BaseBlock h')) w
       = returns (w ++ own ++ [" "%byte] ++ anchorElement r a, None)).
Proof.
  intros M host fuel t r doc p h id w Hf Hn Hu Hid Hne Htext Hpos.
  destruct (pass_at_heading fuel t doc p h Hf Hn Hu) as [HT Hat].
  set (tr := Transformer.newTransform t) in *.
  pose proof (transform_inserts tr h id Hid Htext) as E. cbv zeta in E.
  fold (policyText tr h id) in E.
  change (transform.Position tr) with (Transformer.Position t) in E.
  rewrite <- Hpos in E.
  set (a := newAnchor tr (ast.Level h) id (policyText tr h id)) in *.
  destruct (newAnchor_fields tr (ast.Level h) id (policyText tr h id)) as [Hida _].
  fold a in Hida.
  assert (Hnea : ID a <> []) by (rewrite Hida; exact Hne).
  pose proof (newAnchor_children tr (ast.Level h) id (policyText tr h id)) as Hleaf.
  fold a in Hleaf.
  destruct (renderChildren_appends M host r (ast.bchildren (ast.BaseBlock h)))
    as [own Hown].
  assert (Hmark : forall w0,
            renderTree host r (ofNode a) w0
            = returns (w0 ++ (if (Renderer.Position r =? Before)%Z
                              then anchorElement r a ++ [" "%byte]
                              else " "%byte :: anchorElement r a), None)).
  { intros w0. rewrite (renderTree_leaf_anchor M host r a w0 Hleaf).
    unfold anchorMarkup. destruct (ID a); [contradiction|reflexivity]. }
  exists (decorate tr doc), (transform.transform tr h), a, own,
    (attributeBytes (ast.battributes (BaseInline a))
     ++ bytes_of_string (" href=" ++ dquote ++ "#")
     ++ EscapeHTML (ID a)
     ++ bytes_of_string (dquote ++ ">")
     ++ (if Renderer.Unsafe r then Value a else EscapeHTML (Value a))).
  split; [exact HT|]. split; [exact Hat|]. split; [exact Hida|].
  split; [unfold anchorElement; rewrite <- !app_assoc; reflexivity|].
  split; [intros w0 entering Hm; exact (RenderNode_emits M r w0 a entering Hm Hnea)|].
  split; [intros w0 entering Hm; exact (RenderNode_other_half M r w0 (ofNode a) entering Hm)|].
  split; [exact Hown|].
  rewrite E. cbn [ast.BaseBlock ast.bchildren].
  split.
  - intros Hb. apply Z.eqb_eq in Hb. rewrite Hb in *.
    split; [reflexivity|].
    cbn [renderChildren]. rewrite Hmark, Hown, <- !app_assoc. reflexivity.
  - intros Hb. apply Z.eqb_neq in Hb. rewrite Hb in *.
    split; [reflexivity|].
    rewrite (renderChildren_app M host r _ [ofNode a] w (w ++ own) (Hown w)).
    cbn [renderChildren]. rewrite Hmark, <- !app_assoc. reflexivity.
Qed.

Lemma C5_one_space_on_configured_side_witness :
  (ast.height introDoc < 3)%nat /\
  ast.nodeAt introDoc [1%nat] = Some (ast.ofHeading introHeading) /\
  underHeading introDoc [1%nat] = false /\
  ast.AttributeString (ast.BaseBlock introHeading) "id"
  = Some (ast.Bytes (bytes_of_string "intro")) /\
  bytes_of_string "intro" <> [] /\
  policyText (Transformer.newTransform defaultTransformer) introHeading
    (bytes_of_string "intro") <> [] /\
  Renderer.Position afterRenderer = Transformer.Position defaultTransformer /\
  exists doc' h' a own,
    Transformer.Transform 3 defaultTransformer introDoc = Some doc' /\
    ast.nodeAt doc' [1%nat] = Some (ast.ofHeading h') /\
    ID a = bytes_of_string "intro" /\
    (forall w0,
        @renderChildren sampleMarkup sampleHostBytes afterRenderer
          (ast.bchildren (ast.BaseBlock introHeading)) w0
        = returns (w0 ++ own, None)) /\
    ast.bchildren (ast.BaseBlock h')
    = ast.bchildren (ast.BaseBlock introHeading) ++ [ofNode a] /\
    @renderChildren sampleMarkup sampleHostBytes afterRenderer
      (ast.bchildren (ast.BaseBlock h')) []
    = returns ([] ++ own ++ [" "%byte]
                 ++ @anchorElement sampleMarkup afterRenderer a, None).
Proof.
  assert (H1 : (ast.height introDoc < 3)%nat) by (simpl; lia).
  assert (H5 : bytes_of_string "intro" <> []) by (vm_compute; discriminate).
  assert (H6 : policyText (Transformer.newTransform defaultTransformer) introHeading
                 (bytes_of_string "intro") <> []) by (vm_compute; discriminate).
  assert (H7 : Renderer.Position afterRenderer <> Before) by discriminate.
  repeat (split; [first [exact H1 | exact H5 | exact H6 | reflexivity]|]).
  destruct (C5_one_space_on_configured_side sampleMarkup sampleHostBytes 3
              defaultTransformer afterRenderer introDoc [1%nat] introHeading
              (bytes_of_string "intro") [] H1 eq_refl eq_refl eq_refl H5 H6 eq_refl)
    as (doc' & h' & a & own & body & HT & Hn & Hid & _ & _ & _ & Hown & _ & Hafter).
  destruct (Hafter H7) as [Hc Hr].
  exists doc', h', a, own.
  repeat (split; [first [exact HT | exact Hn | exact Hid | exact Hown | exact Hc]|]).
  exact Hr.
Defined.

(** C10: [RenderNode] is a function of the node's identifier, text and
    attribute list, the flag and the renderer's two settings.  Two calls
    that agree on these add the same bytes to their sinks, whatever the
    sinks held before and whatever else the nodes carry, and return the same
    status and error. *)
Theorem C10_render_deterministic :
  forall (M : Markup) r w1 w2 n1 n2 entering,
    ID n1 = ID n2 ->
    Value n1 = Value n2 ->
    ast.battributes (BaseInline n1) = ast.battributes (BaseInline n2) ->
    exists out status err,
      Renderer.RenderNode r w1 (ofNode n1) entering = returns (w1 ++ out, status, err) /\
      Renderer.RenderNode r w2 (ofNode n2) entering = returns (w2 ++ out, status, err).
Proof.
  intros M r w1 w2 n1 n2 entering Hid Hv Ha.
  destruct (ownHalf r entering) eqn:Hm.
  - assert (Hd : ID n1 = [] \/ ID n1 <> []).
    { destruct (ID n1); [left; reflexivity|right; discriminate]. }
    destruct Hd as [H0|H1].
    + exists [], ast.WalkContinue, None. rewrite !app_nil_r.
      split; apply RenderNode_empty_id; congruence.
    + assert (H2 : ID n2 <> []) by (rewrite <- Hid; exact H1).
      assert (He : anchorElement r n2 = anchorElement r n1).
      { unfold anchorElement. rewrite Hid, Hv, Ha. reflexivity. }
      eexists. exists ast.WalkContinue, None.
      rewrite (RenderNode_emits M r w1 n1 entering Hm H1).
      rewrite (RenderNode_emits M r w2 n2 entering Hm H2).
      rewrite He. split; reflexivity.
  - exists [], ast.WalkContinue, None. rewrite !app_nil_r.
    split; apply RenderNode_other_half; exact Hm.
Qed.

Lemma C10_render_deterministic_witness :
  ID introAnchor = ID introAnchor /\
  Value introAnchor = Value introAnchor /\
  ast.battributes (BaseInline introAnchor) = ast.battributes (BaseInline introAnchor) /\
  exists out status err,
    @Renderer.RenderNode sampleMarkup afterRenderer [] (ofNode introAnchor) false
    = returns ([] ++ out, status, err) /\
    @Renderer.RenderNode sampleMarkup afterRenderer (bytes_of_string "<h2>")
        (ofNode introAnchor) false
    = returns (bytes_of_string "<h2>" ++ out, status, err).
Proof.
  repeat (split; [reflexivity|]).
  exact (C10_render_deterministic sampleMarkup afterRenderer [] (bytes_of_string "<h2>")
           introAnchor introAnchor false eq_refl eq_refl eq_refl).
Defined.

(** ** Further properties of the extension *)

(** *** [Position.String] *)

(** X1: [String] never panics: its slice bounds are in range whenever it
    slices.  It returns the name [After] for [After] and for nothing else,
    the name [Before] for [Before] and for nothing else, and for every
    other value the text [Position(] followed by the number as
    [FormatInt] prints it and [)]. *)
Theorem X1_Position_String_total_and_names :
  forall FormatInt (i : Position),
    exists s,
      Position_String FormatInt i = returns s /\
      (s = "After"%string <-> i = After) /\
      (s = "Before"%string <-> i = Before) /\
      (i <> After -> i <> Before ->
       s = ("Position(" ++ FormatInt i 10%Z ++ ")")%string).
Proof.
  intros FormatInt i. unfold Position_String.
  change (len _Position_index - 1)%Z with 2%Z.
  destruct (i <? 0)%Z eqn:Hneg; cbn [orb].
  - apply Z.ltb_lt in Hneg. eexists. split; [reflexivity|].
    unfold After, Before. repeat split; try (intros H; discriminate H); try lia.
  - apply Z.ltb_ge in Hneg. destruct (i >=? 2)%Z eqn:Hbig.
    + apply Z.geb_le in Hbig. eexists. split; [reflexivity|].
      unfold After, Before. repeat split; try (intros H; discriminate H); try lia.
    + rewrite Z.geb_leb in Hbig. apply Z.leb_gt in Hbig.
      assert (Hi : i = 0%Z \/ i = 1%Z) by lia.
      destruct Hi as [-> | ->].
      * exists "After"%string. split; [reflexivity|].
        unfold After, Before. repeat split; try (intros H; discriminate H);
          try (intros H; contradiction); try lia.
      * exists "Before"%string. split; [reflexivity|].
        unfold After, Before. repeat split; try (intros H; discriminate H);
          try (intros H; contradiction); try lia.
Qed.

(** *** The enter call and the exit call together *)

Lemma enter_exit_pair :
  forall (M : Markup) r w n,
    exists w1,
      Renderer.RenderNode r w (ofNode n) true = returns (w1, ast.WalkContinue, None) /\
      Renderer.RenderNode r w1 (ofNode n) false
      = returns (w ++ anchorMarkup r n, ast.WalkContinue, None) /\
      (w1 = w \/ w1 = w ++ anchorMarkup r n).
Proof.
  intros M r w n. unfold anchorMarkup.
  destruct (ID n) as [|c id] eqn:Hid.
  - exists w. rewrite app_nil_r.
    split; [apply RenderNode_empty_id; exact Hid|].
    split; [apply RenderNode_empty_id; exact Hid|left; reflexivity].
  - assert (Hne : ID n <> []) by (rewrite Hid; discriminate).
    destruct (Renderer.Position r =? Before)%Z eqn:Hp.
    + assert (Hin : ownHalf r true = true) by (unfold ownHalf; rewrite Hp; reflexivity).
      assert (Hout : ownHalf r false = false) by (unfold ownHalf; rewrite Hp; reflexivity).
      exists (w ++ anchorElement r n ++ [" "%byte]).
      split; [rewrite (RenderNode_emits M r w n true Hin Hne), Hp; reflexivity|].
      split; [apply RenderNode_other_half; exact Hout|right; reflexivity].
    + assert (Hin : ownHalf r true = false) by (unfold ownHalf; rewrite Hp; reflexivity).
      assert (Hout : ownHalf r false = true) by (unfold ownHalf; rewrite Hp; reflexivity).
      exists w.
      split; [apply RenderNode_other_half; exact Hin|].
      split; [rewrite (RenderNode_emits M r w n false Hout Hne), Hp; reflexivity
             |left; reflexivity].
Qed.

(** X2: over the enter call and the exit call for one anchor node
    [RenderNode] writes the anchor element with its one space exactly once
    when the identifier is not empty, and nothing when it is empty; this
    holds for every position value, and both calls return [WalkContinue]
    and no error. *)
Theorem X2_enter_exit_pair_writes_once :
  forall (M : Markup) r w n,
    exists w1,
      Renderer.RenderNode r w (ofNode n) true = returns (w1, ast.WalkContinue, None) /\
      Renderer.RenderNode r w1 (ofNode n) false
      = returns (w ++ anchorMarkup r n, ast.WalkContinue, None) /\
      (w1 = w \/ w1 = w ++ anchorMarkup r n).
Proof.
  intros M r w n. unfold anchorMarkup.
  destruct (ID n) as [|c id] eqn:Hid.
  - exists w. rewrite app_nil_r.
    split; [apply RenderNode_empty_id; exact Hid|].
    split; [apply RenderNode_empty_id; exact Hid|left; reflexivity].
  - assert (Hne : ID n <> []) by (rewrite Hid; discriminate).
    destruct (Renderer.Position r =? Before)%Z eqn:Hp.
    + assert (Hin : ownHalf r true = true) by (unfold ownHalf; rewrite Hp; reflexivity).
      assert (Hout : ownHalf r false = false) by (unfold ownHalf; rewrite Hp; reflexivity).
      exists (w ++ anchorElement r n ++ [" "%byte]).
      split; [rewrite (RenderNode_emits M r w n true Hin Hne), Hp; reflexivity|].
      split; [apply RenderNode_other_half; exact Hout|right; reflexivity].
    + assert (Hin : ownHalf r true = false) by (unfold ownHalf; rewrite Hp; reflexivity).
      assert (Hout : ownHalf r false = true) by (unfold ownHalf; rewrite Hp; reflexivity).
      exists w.
      split; [apply RenderNode_other_half; exact Hin|].
      split; [rewrite (RenderNode_emits M r w n false Hout Hne), Hp; reflexivity
             |left; reflexivity].
Qed.

(** *** The anchor node that is built *)

Lemma storeAttr_fresh : forall name v l,
  ~ In name (map ast.Name l) ->
  ast.storeAttr name v l = l ++ [{| ast.Name := name; ast.Value := v |}].
Proof.
  intros name v l. induction l as [|a l IH]; intros Hn; [reflexivity|].
  simpl in *. destruct (String.eqb (ast.Name a) name) eqn:E.
  - apply String.eqb_eq in E. exfalso. apply Hn. left. exact E.
  - rewrite IH; [reflexivity|]. intros H. apply Hn. right. exact H.
Qed.

Lemma setAttributes_fresh : forall kvs n,
  NoDup (map fst kvs) ->
  (forall k, In k (map fst kvs) -> ~ In k (map ast.Name (ast.battributes (BaseInline n)))) ->
  fold_left
    (fun n (kv : string * string) =>
       Node_SetAttributeString n (fst kv) (ast.Bytes (bytes_of_string (snd kv))))
    kvs n
  = {| BaseInline :=
         {| ast.battributes := ast.battributes (BaseInline n) ++ map pairAttribute kvs;
            ast.bchildren := ast.bchildren (BaseInline n) |};
       ID := ID n; Level := Level n; Value := Value n |}.
Proof.
  induction kvs as [|kv kvs IH]; intros n Hnd Hfresh.
  - simpl. rewrite app_nil_r. destruct n as [[a c] i l v]. reflexivity.
  - cbn [fold_left]. inversion Hnd as [|k ks Hk Hnd']; subst.
    rewrite IH.
    + unfold Node_SetAttributeString, ast.SetAttributeString. cbn.
      rewrite storeAttr_fresh by (apply Hfresh; left; reflexivity).
      rewrite <- app_assoc. reflexivity.
    + exact Hnd'.
    + intros k Hin. unfold Node_SetAttributeString, ast.SetAttributeString. cbn.
      rewrite storeAttr_fresh by (apply Hfresh; left; reflexivity).
      rewrite map_app, in_app_iff. intros [H|H].
      * apply (Hfresh k); [right; exact Hin|exact H].
      * simpl in H. destruct H as [H|[]]. subst k. apply Hk. exact Hin.
Qed.

(** X3: the node [transform.transform] puts under a heading that gets one
    is an anchor with the heading's identifier and level and the policy's
    text, with no children, and with exactly the attribute policy's pairs
    as its attributes: every name once, in the order the pairs come, each
    value as bytes.  The names of the pairs are distinct, as the keys of a
    Go map are. *)
Theorem X3_inserted_anchor_fields_and_attributes :
  forall t h id,
    ast.AttributeString (ast.BaseBlock h) "id" = Some (ast.Bytes id) ->
    policyText t h id <> [] ->
    NoDup (map fst (AnchorAttributes (transform.Attributer t)
                      {| info_Level := ast.Level h; info_ID := id |})) ->
    let a :=
      ast.mkNode (ast.PAnchor id (ast.Level h) (policyText t h id))
        (map pairAttribute
           (AnchorAttributes (transform.Attributer t)
              {| info_Level := ast.Level h; info_ID := id |}))
        [] in
    ast.bchildren (ast.BaseBlock (transform.transform t h))
    = (if (transform.Position t =? Before)%Z
       then a :: ast.bchildren (ast.BaseBlock h)
       else ast.bchildren (ast.BaseBlock h) ++ [a]).
Proof.
  intros t h id Hid Htext Hnd a.
  rewrite (transform_inserts t h id Hid Htext). cbn [ast.BaseBlock ast.bchildren].
  fold (policyText t h id).
  assert (Ha : ofNode (newAnchor t (ast.Level h) id (policyText t h id)) = a).
  { unfold newAnchor. rewrite setAttributes_fresh.
    - reflexivity.
    - exact Hnd.
    - intros k _ H. destruct H. }
  rewrite Ha. reflexivity.
Qed.

Lemma X3_inserted_anchor_fields_and_attributes_witness :
  ast.AttributeString (ast.BaseBlock introHeading) "id"
  = Some (ast.Bytes (bytes_of_string "intro")) /\
  policyText twoAttributesTransform introHeading (bytes_of_string "intro") <> [] /\
  NoDup (map fst (AnchorAttributes (transform.Attributer twoAttributesTransform)
                    {| info_Level := ast.Level introHeading;
                       info_ID := bytes_of_string "intro" |})) /\
  ast.bchildren (ast.BaseBlock (transform.transform twoAttributesTransform introHeading))
  = [ast.mkNode (ast.PAnchor (bytes_of_string "intro") 2 (bytes_of_string "#"))
       [{| ast.Name := "class"; ast.Value := ast.Bytes (bytes_of_string "permalink") |};
        {| ast.Name := "rel"; ast.Value := ast.Bytes (bytes_of_string "self") |}]
       [];
     textNode].
Proof.
  assert (H2 : policyText twoAttributesTransform introHeading (bytes_of_string "intro")
               <> []) by (vm_compute; discriminate).
  assert (H3 : NoDup (map fst (AnchorAttributes (transform.Attributer twoAttributesTransform)
                                 {| info_Level := ast.Level introHeading;
                                    info_ID := bytes_of_string "intro" |}))).
  { simpl. repeat constructor; simpl; intuition discriminate. }
  split; [reflexivity|]. split; [exact H2|]. split; [exact H3|].
  exact (X3_inserted_anchor_fields_and_attributes twoAttributesTransform introHeading
           (bytes_of_string "intro") eq_refl H2 H3).
Defined.

Lemma X1_Position_String_total_and_names_witness :
  7%Z <> After /\ 7%Z <> Before /\
  Position_String sampleFormatInt 7%Z = returns "Position(n)"%string.
Proof.
  assert (Ha : 7%Z <> After) by discriminate.
  assert (Hb : 7%Z <> Before) by discriminate.
  split; [exact Ha|]. split; [exact Hb|].
  destruct (X1_Position_String_total_and_names sampleFormatInt 7%Z)
    as (s & Hs & _ & _ & Hother).
  rewrite Hs, (Hother Ha Hb). reflexivity.
Defined.

(** *** Documents the pass leaves alone *)

Lemma transform_unchanged : forall t h,
  (forall id, ast.AttributeString (ast.BaseBlock h) "id" = Some (ast.Bytes id) ->
              policyText t h id = []) ->
  transform.transform t h = h.
Proof.
  intros t h H.
  destruct (ast.AttributeString (ast.BaseBlock h) "id") as [v|] eqn:Hid;
    [|apply transform_no_id; exact Hid].
  destruct v as [id| |].
  - apply transform_no_text with (id := id); [exact Hid|]. apply H. reflexivity.
  - eapply transform_id_not_bytes; [exact Hid|discriminate].
  - eapply transform_id_not_bytes; [exact Hid|discriminate].
Qed.

Lemma decorate_unchanged : forall t n,
  (forall p h id,
      ast.nodeAt n p = Some (ast.ofHeading h) -> underHeading n p = false ->
      ast.AttributeString (ast.BaseBlock h) "id" = Some (ast.Bytes id) ->
      policyText t h id = []) ->
  decorate t n = n.
Proof.
  intros t n. induction n as [pl a cs IH] using Node_forall_ind. intros H.
  destruct (ast.asHeading (ast.mkNode pl a cs)) as [h|] eqn:Hh.
  - apply asHeading_Some in Hh. rewrite Hh in *. rewrite decorate_ofHeading.
    rewrite transform_unchanged; [reflexivity|].
    intros id Hid. apply (H [] h id); [reflexivity|reflexivity|exact Hid].
  - assert (Hnot : ast.isHeading (ast.mkNode pl a cs) = false).
    { destruct pl; try reflexivity. discriminate. }
    rewrite decorate_not_heading by exact Hnot. cbn [ast.payload ast.attributes ast.children].
    f_equal. rewrite <- (map_id cs) at 2. apply map_ext_in.
    intros c Hc. rewrite Forall_forall in IH. apply IH; [exact Hc|].
    destruct (In_nth_error cs c Hc) as [i Hi].
    intros p h id Hn Hu Hid. apply (H (i :: p) h id); [| |exact Hid].
    + cbn [ast.nodeAt ast.children]. rewrite Hi. exact Hn.
    + cbn [underHeading ast.children]. rewrite Hnot, Hi. exact Hu.
Qed.

(** X4: when no heading the walk reaches has both an identifier that is a
    byte sequence and non-empty policy text, the pass hands the document
    back exactly as it was.  A text policy that returns nothing, [Text] of
    the empty string for one, turns the extension off for the whole
    document, and so does a document whose headings carry no [id]
    attribute. *)
Theorem X4_unchanged_when_no_heading_qualifies :
  forall fuel t doc,
    (ast.height doc < fuel)%nat ->
    (forall p h id,
        ast.nodeAt doc p = Some (ast.ofHeading h) -> underHeading doc p = false ->
        ast.AttributeString (ast.BaseBlock h) "id" = Some (ast.Bytes id) ->
        policyText (Transformer.newTransform t) h id = []) ->
    Transformer.Transform fuel t doc = Some doc.
Proof.
  intros fuel t doc Hf H. rewrite Transform_enough_fuel by exact Hf.
  rewrite decorate_unchanged by exact H. reflexivity.
Qed.

Lemma X4_unchanged_when_no_heading_qualifies_witness :
  (ast.height introDoc < 3)%nat /\
  (forall p h id,
      ast.nodeAt introDoc p = Some (ast.ofHeading h) -> underHeading introDoc p = false ->
      ast.AttributeString (ast.BaseBlock h) "id" = Some (ast.Bytes id) ->
      policyText (Transformer.newTransform noTextTransformer) h id = []) /\
  Transformer.Transform 3 noTextTransformer introDoc = Some introDoc.
Proof.
  assert (H1 : (ast.height introDoc < 3)%nat) by (simpl; lia).
  assert (H2 : forall p h id,
             ast.nodeAt introDoc p = Some (ast.ofHeading h) ->
             underHeading introDoc p = false ->
             ast.AttributeString (ast.BaseBlock h) "id" = Some (ast.Bytes id) ->
             policyText (Transformer.newTransform noTextTransformer) h id = [])
    by (intros; reflexivity).
  split; [exact H1|]. split; [exact H2|].
  exact (X4_unchanged_when_no_heading_qualifies 3 noTextTransformer introDoc H1 H2).
Defined.

(** *** From [Extend] to the rendered anchor *)

(** X5: with the transformer and the renderer that [Extend] registers, both
    at priority 100, a heading that qualifies gets an anchor node at the
    side the extender's position names, and the enter and exit calls of the
    renderer for that very node write the anchor element for the heading's
    identifier and the policy's text, with the space on the matching side.
    When the identifier is the empty byte sequence the node is there but
    nothing is written for it. *)
Theorem X5_installed_pair_renders_inserted_anchor :
  forall (M : Markup) e md fuel doc p h id w,
    (ast.height doc < fuel)%nat ->
    ast.nodeAt doc p = Some (ast.ofHeading h) ->
    underHeading doc p = false ->
    ast.AttributeString (ast.BaseBlock h) "id" = Some (ast.Bytes id) ->
    policyText (Transformer.newTransform (AnchorExtender.newTransformer e)) h id <> [] ->
    let t := AnchorExtender.newTransformer e in
    let r := AnchorExtender.newRenderer e in
    Extend e md
    = {| ASTTransformers := ASTTransformers md ++ [(t, 100%Z)];
         NodeRenderers := NodeRenderers md ++ [(r, 100%Z)] |} /\
    exists doc' h' a w1,
      Transformer.Transform fuel t doc = Some doc' /\
      ast.nodeAt doc' p = Some (ast.ofHeading h') /\
      ast.bchildren (ast.BaseBlock h')
      = (if (AnchorExtender.Position e =? Before)%Z
         then ofNode a :: ast.bchildren (ast.BaseBlock h)
         else ast.bchildren (ast.BaseBlock h) ++ [ofNode a]) /\
      ID a = id /\
      Value a = policyText (Transformer.newTransform t) h id /\
      Renderer.RenderNode r w (ofNode a) true = returns (w1, ast.WalkContinue, None) /\
      Renderer.RenderNode r w1 (ofNode a) false
      = returns
          (w ++ match id with
                | [] => []
                | _ :: _ =>
                    if (AnchorExtender.Position e =? Before)%Z
                    then anchorElement r a ++ [" "%byte]
                    else " "%byte :: anchorElement r a
                end,
           ast.WalkContinue, None).
Proof.
  intros M e md fuel doc p h id w Hf Hn Hu Hid Htext t r.
  split; [reflexivity|].
  destruct (pass_at_heading fuel t doc p h Hf Hn Hu) as [HT Hat].
  set (tr := Transformer.newTransform t) in *.
  pose proof (transform_inserts tr h id Hid Htext) as E. cbv zeta in E.
  fold (policyText tr h id) in E.
  set (a := newAnchor tr (ast.Level h) id (policyText tr h id)) in *.
  pose proof (newAnchor_payload tr (ast.Level h) id (policyText tr h id)) as Hpl.
  fold a in Hpl.
  assert (Hfields : ast.payload (ofNode a) = ast.PAnchor (ID a) (Level a) (Value a))
    by reflexivity.
  rewrite Hpl in Hfields. injection Hfields as Hida _ Hva.
  symmetry in Hida, Hva.
  destruct (enter_exit_pair M r w a) as (w1 & Hin & Hout & _).
  exists (decorate tr doc), (transform.transform tr h), a, w1.
  split; [exact HT|]. split; [exact Hat|].
  split; [rewrite E; reflexivity|].
  split; [exact Hida|]. split; [exact Hva|]. split; [exact Hin|].
  rewrite Hout. unfold anchorMarkup. rewrite Hida. reflexivity.
Qed.

Lemma X5_installed_pair_renders_inserted_anchor_witness :
  (ast.height introDoc < 3)%nat /\
  ast.nodeAt introDoc [1%nat] = Some (ast.ofHeading introHeading) /\
  underHeading introDoc [1%nat] = false /\
  ast.AttributeString (ast.BaseBlock introHeading) "id"
  = Some (ast.Bytes (bytes_of_string "intro")) /\
  policyText (Transformer.newTransform (AnchorExtender.newTransformer sampleExtender))
    introHeading (bytes_of_string "intro") <> [] /\
  exists doc' h' a w1,
    Transformer.Transform 3 (AnchorExtender.newTransformer sampleExtender) introDoc
    = Some doc' /\
    ast.nodeAt doc' [1%nat] = Some (ast.ofHeading h') /\
    ast.bchildren (ast.BaseBlock h') = [textNode; ofNode a] /\
    ID a = bytes_of_string "intro" /\
    @Renderer.RenderNode sampleMarkup (AnchorExtender.newRenderer sampleExtender) []
      (ofNode a) true = returns (w1, ast.WalkContinue, None) /\
    @Renderer.RenderNode sampleMarkup (AnchorExtender.newRenderer sampleExtender) w1
      (ofNode a) false
    = returns (" "%byte :: @anchorElement sampleMarkup
                             (AnchorExtender.newRenderer sampleExtender) a,
               ast.WalkContinue, None).
Proof.
  assert (H1 : (ast.height introDoc < 3)%nat) by (simpl; lia).
  assert (H5 : policyText
                 (Transformer.newTransform (AnchorExtender.newTransformer sampleExtender))
                 introHeading (bytes_of_string "intro") <> []) by (vm_compute; discriminate).
  repeat (split; [first [exact H1 | exact H5 | reflexivity]|]).
  destruct (X5_installed_pair_renders_inserted_anchor sampleMarkup sampleExtender
              {| ASTTransformers := []; NodeRenderers := [] |} 3 introDoc [1%nat]
              introHeading (bytes_of_string "intro") [] H1 eq_refl eq_refl eq_refl H5)
    as (_ & doc' & h' & a & w1 & HT & Hn & Hc & Hid & _ & Hin & Hout).
  exists doc', h', a, w1.
  repeat (split; [first [exact HT | exact Hn | exact Hc | exact Hid | exact Hin]|]).
  exact Hout.
Defined.

(** *** No node is visited twice *)

Lemma visits_prefix : forall n p q e,
  In (q, e) (visits p n) -> exists s, q = p ++ s.
Proof.
  intros n p q e H. destruct (visits_outside_headings n p q e H) as (s & Hs & _).
  exists s. exact Hs.
Qed.

Lemma visitsFrom_prefix : forall p l i q e,
  In (q, e) (visitsFrom p i l) -> exists k s, q = p ++ (i + k)%nat :: s.
Proof.
  intros p l i q e H. destruct (visitsFrom_In p (q, e) l i H) as (k & c & _ & Hc).
  destruct (visits_prefix c _ q e Hc) as (s & ->).
  exists k, s. rewrite <- app_assoc. reflexivity.
Qed.

Lemma path_not_below_itself : forall (p : ast.path) k s, p <> p ++ k :: s.
Proof.
  intros p k s H. apply (f_equal (@length nat)) in H.
  rewrite length_app in H. simpl in H. lia.
Qed.

Lemma NoDup_visitsFrom : forall p l i,
  Forall (fun c => forall q, NoDup (visits q c)) l -> NoDup (visitsFrom p i l).
Proof.
  intros p l. induction l as [|c l IH]; intros i Hall; [constructor|].
  inversion Hall as [|c' l' Hc Hl]; subst. cbn [visitsFrom].
  apply NoDup_app; [apply Hc|apply IH; exact Hl|].
  intros [q e] H1 H2.
  destruct (visits_prefix c _ q e H1) as (s & E1).
  destruct (visitsFrom_prefix p l (S i) q e H2) as (k & s' & E2).
  rewrite E1, <- app_assoc in E2. apply app_inv_head in E2.
  simpl in E2. injection E2 as E2 _. lia.
Qed.

Lemma NoDup_visits : forall n p, NoDup (visits p n).
Proof.
  induction n as [pl a cs IH] using Node_forall_ind. intros p.
  rewrite visits_eq.
  set (mid := if ast.isHeading (ast.mkNode pl a cs) then [] else visitsFrom p 0 cs).
  assert (Hmid : forall e, ~ In (p, e) mid).
  { intros e H. unfold mid in H.
    destruct (ast.isHeading (ast.mkNode pl a cs)); [destruct H|].
    destruct (visitsFrom_prefix p cs 0 p e H) as (k & s & E).
    exact (path_not_below_itself p _ s E). }
  assert (Hnd : NoDup mid).
  { unfold mid. destruct (ast.isHeading (ast.mkNode pl a cs)); [constructor|].
    apply NoDup_visitsFrom. exact IH. }
  constructor.
  - intros H. apply in_app_or in H. destruct H as [H|[H|[]]].
    + exact (Hmid true H).
    + discriminate H.
  - apply NoDup_app; [exact Hnd|repeat constructor; intros []|].
    intros x Hx [Hx'|[]]. subst x. exact (Hmid false Hx).
Qed.

(** X6: in one pass [Visit] is called at most once for a node and
    direction: the log of the walk's calls has no entry twice. *)
Theorem X6_each_call_made_once :
  forall fuel t doc,
    (ast.height doc < fuel)%nat ->
    exists doc' calls,
      Transformer.walk fuel t doc = Some (doc', None, calls) /\
      NoDup calls.
Proof.
  intros fuel t doc Hf.
  exists (decorate (Transformer.newTransform t) doc), (visits [] doc).
  split; [apply walk_enough_fuel; exact Hf|apply NoDup_visits].
Qed.

Lemma X6_each_call_made_once_witness :
  (ast.height introDoc < 3)%nat /\
  exists doc' calls,
    Transformer.walk 3 defaultTransformer introDoc = Some (doc', None, calls) /\
    NoDup calls.
Proof.
  assert (H1 : (ast.height introDoc < 3)%nat) by (simpl; lia).
  split; [exact H1|].
  exact (X6_each_call_made_once 3 defaultTransformer introDoc H1).
Defined.
